(** * script2.py: map-link builder (Point, YandexMapGenerator, main)

    A shallow embedding of [src/script2.py] and the properties of its
    behaviour.

    Modelling conventions.
    - A Python object that [json.loads] can return is a [pyval].  A [str]
      is the Rocq [string] of its UTF-8 bytes, an [int] is a [Z], a
      [float] is a binary64 value ([pyfloat], exact integer mantissa and
      exponent), a [dict] is an association list in insertion order with
      distinct keys.
    - A method of [YandexMapGenerator] is a function from the object's
      state to an outcome and the state left behind: a Python exception
      leaves the mutations made before it in place, so the state is
      returned on both paths.
    - [logging] calls write to the log only and are left out.
    - The builtins [int], [float], [str]/[repr] and the library functions
      [json.loads] and [urllib.parse.urlencode] are modelled as CPython
      3.11 has them; [int] and [float] read the decimal digits and the
      white space of every script.  The interpreter's limits (recursion
      depth, the 4300-digit bound on int/str conversion) are not
      modelled. *)

From Stdlib Require Import ZArith List String Ascii Bool Lia DecimalString.
From Stdlib Require Import QArith Qround.
From Stdlib Require Import DecimalPos.
Import ListNotations.

Open Scope string_scope.
Open Scope list_scope.
Open Scope Z_scope.

(** ** Python exceptions *)

(** The [ValueError]s the program can meet, by origin. *)
Inductive value_error : Type :=
| NotAList          (* _parse_points, line 31: "JSON должен быть списком точек" *)
| MissingKeys       (* _parse_points, line 35: "Точка должна содержать id, latitude, longitude" *)
| NoPoints          (* generate_map_url, line 64: "Нет точек" *)
| InvalidLiteral    (* int(str) / float(str) on text that is not a numeral *)
| NanToInteger.     (* int(float('nan')) *)

Inductive exc : Type :=
| ValueError (why : value_error)
| JSONDecodeError          (* json.loads on malformed text *)
| TypeError                (* unsupported operand: [in], indexing, int(), float() *)
| OverflowError            (* int(inf), float(int) beyond the binary64 range *)
| KeyError                 (* dict indexing with an absent key *)
| AttributeError           (* a method the object does not have *)
| OSError                  (* open() or read() on a file that cannot be read *)
| SystemExit.              (* parser.error: usage error *)

(** Outcome of a computation that may raise. *)
Definition result (A : Type) : Type := (exc + A)%type.
Definition Ok {A} (x : A) : result A := inr x.
Definition Raise {A} (e : exc) : result A := inl e.

Definition is_ok {A} (r : result A) : bool :=
  match r with inr _ => true | inl _ => false end.

(** The spec's error taxonomy.  A validation error is one of the three
    [ValueError]s the program raises itself; a coercion error is what
    [int()] or [float()] raise on a value they cannot convert. *)
Definition is_validation_error (e : exc) : bool :=
  match e with
  | ValueError NotAList | ValueError MissingKeys | ValueError NoPoints => true
  | _ => false
  end.

Definition is_coercion_error (e : exc) : bool :=
  match e with
  | TypeError | OverflowError
  | ValueError InvalidLiteral | ValueError NanToInteger => true
  | _ => false
  end.

(** ** Text helpers *)

Module Text.

Definition chars : string -> list ascii := list_ascii_of_string.
Definition text : list ascii -> string := string_of_list_ascii.

Definition code (c : ascii) : Z := Z.of_nat (nat_of_ascii c).
Definition char (n : Z) : ascii := ascii_of_nat (Z.to_nat n).

Definition is_digit (c : ascii) : bool :=
  (48 <=? code c) && (code c <=? 57).

Definition digit_val (c : ascii) : Z := code c - 48.

(** Value of a run of decimal digits, most significant first. *)
Definition digits_val (ds : list ascii) : Z :=
  fold_left (fun acc c => 10 * acc + digit_val c) ds 0.

(** Python's [str(n)] for an [int]. *)
Definition str_of_int (z : Z) : string :=
  NilZero.string_of_int (Z.to_int z).

Fixpoint repeat_char (c : ascii) (n : nat) : list ascii :=
  match n with O => [] | S n' => c :: repeat_char c n' end.

(** [needle in haystack] on [str]: substring test. *)
Fixpoint is_prefix (p s : list ascii) : bool :=
  match p, s with
  | [], _ => true
  | _ :: _, [] => false
  | a :: p', b :: s' => Ascii.eqb a b && is_prefix p' s'
  end.

Fixpoint is_substring (p s : list ascii) : bool :=
  is_prefix p s ||
  match s with
  | [] => false
  | _ :: s' => is_substring p s'
  end.

End Text.

(** ** Binary64 floating point *)

Module Float.

(** A Python [float].  [Finite neg m e] is [(-1)^neg * m * 2^e] in
    canonical form: [2^52 <= m < 2^53] and [-1074 <= e <= 971], or
    [m < 2^52] and [e = -1074] (subnormal). *)
Inductive pyfloat : Type :=
| Nan
| Inf (neg : bool)
| Zero (neg : bool)
| Finite (neg : bool) (m : positive) (e : Z).

(** Magnitude of a rounded positive real. *)
Inductive magnitude : Type :=
| MZero
| MFinite (m : positive) (e : Z)
| MInf.

(** [floor (log2 (n / d))]. *)
Definition floor_log2_ratio (n d : positive) : Z :=
  let l := Z.log2 (Zpos n) - Z.log2 (Zpos d) in
  if 0 <=? l
  then (if Zpos d * 2 ^ l <=? Zpos n then l else l - 1)
  else (if Zpos d <=? Zpos n * 2 ^ (- l) then l else l - 1).

(** [num / den] rounded to an integer, ties to even. *)
Definition div_half_even (num den : Z) : Z :=
  let q := num / den in
  let r := num mod den in
  match 2 * r ?= den with
  | Lt => q
  | Gt => q + 1
  | Eq => if Z.even q then q else q + 1
  end.

(** The positive rational [n / d] rounded to binary64, to nearest,
    ties to even (IEEE 754 roundTiesToEven). *)
Definition round_ratio (n d : positive) : magnitude :=
  let e := Z.max (floor_log2_ratio n d - 52) (-1074) in
  let q := if 0 <=? e
           then div_half_even (Zpos n) (Zpos d * 2 ^ e)
           else div_half_even (Zpos n * 2 ^ (- e)) (Zpos d) in
  let '(q, e) := if q =? 2 ^ 53 then (2 ^ 52, e + 1) else (q, e) in
  if q =? 0 then MZero
  else if 971 <? e then MInf
  else MFinite (Z.to_pos q) e.

(** [c * 10^k] for [c > 0], rounded to binary64. *)
Definition round_decimal (c : positive) (k : Z) : magnitude :=
  if 0 <=? k
  then round_ratio (Z.to_pos (Zpos c * 10 ^ k)) 1
  else round_ratio c (Z.to_pos (10 ^ (- k))).

Definition signed (neg : bool) (g : magnitude) : pyfloat :=
  match g with
  | MZero => Zero neg
  | MFinite m e => Finite neg m e
  | MInf => Inf neg
  end.

(** [float(n)] for an [int]: raises OverflowError beyond the range. *)
Definition of_int (z : Z) : result pyfloat :=
  match z with
  | Z0 => Ok (Zero false)
  | Zpos p =>
      match round_ratio p 1 with
      | MInf => Raise OverflowError
      | g => Ok (signed false g)
      end
  | Zneg p =>
      match round_ratio p 1 with
      | MInf => Raise OverflowError
      | g => Ok (signed true g)
      end
  end.

(** The value of a decimal numeral [sign digits * 10^k]: what
    [float(str)] and the JSON number scanner produce.  Out-of-range
    numerals give [inf], never an exception. *)
Definition of_decimal (neg : bool) (c : Z) (k : Z) : pyfloat :=
  match c with
  | Zpos p => signed neg (round_decimal p k)
  | _ => Zero neg
  end.

(** [int(x)] for a [float]: truncation toward zero. *)
Definition to_int (x : pyfloat) : result Z :=
  match x with
  | Nan => Raise (ValueError NanToInteger)
  | Inf _ => Raise OverflowError
  | Zero _ => Ok 0
  | Finite neg m e =>
      let a := if 0 <=? e then Zpos m * 2 ^ e else Zpos m / 2 ^ (- e) in
      Ok (if neg then - a else a)
  end.

(** The exact rational value of a finite float. *)
Definition to_Q (x : pyfloat) : Q :=
  match x with
  | Finite neg m e =>
      let v := if 0 <=? e
               then inject_Z (Zpos m * 2 ^ e)
               else Qmake (Zpos m) (Z.to_pos (2 ^ (- e))) in
      if neg then Qopp v else v
  | _ => 0%Q
  end.

Definition is_finite (x : pyfloat) : bool :=
  match x with
  | Zero _ | Finite _ _ _ => true
  | _ => false
  end.

(** *** [repr(x)]: shortest decimal string that reads back as [x] *)

(** Number of decimal digits of a positive integer. *)
Definition ndigits (c : Z) : Z :=
  Z.of_nat (String.length (Text.str_of_int c)).

(** For [0 < num / den < 1]: the least [j >= 1] with
    [num * 10^j >= den]. *)
Fixpoint first_digit_pos (fuel : nat) (num den j : Z) : Z :=
  match fuel with
  | O => j
  | S fuel' =>
      if den <=? num * 10 then j
      else first_digit_pos fuel' (num * 10) den (j + 1)
  end.

(** The decimal point position [k] of [num / den > 0]:
    [10^(k-1) <= num / den < 10^k]. *)
Definition decimal_point (num den : Z) : Z :=
  let i := num / den in
  if 0 <? i then ndigits i
  else 1 - first_digit_pos 400 num den 1.

(** The two neighbours of [num / den] on the grid of multiples of
    [10^s], and the choice between them: the nearer one among those
    that read back as [Finite _ m e] (ties to the even one); [None]
    when neither reads back. *)
Definition nearest_on_grid (m : positive) (e : Z) (num den s : Z) : option Z :=
  let num' := if s <=? 0 then num * 10 ^ (- s) else num in
  let den' := if s <=? 0 then den else den * 10 ^ s in
  let lo := num' / den' in
  let r := num' mod den' in
  let back (c : Z) : bool :=
    match c with
    | Zpos p =>
        match round_decimal p s with
        | MFinite m' e' => Pos.eqb m' m && (e' =? e)
        | _ => false
        end
    | _ => false
    end in
  if r =? 0 then Some lo
  else
    let hi := lo + 1 in
    match back lo, back hi with
    | true, true =>
        match 2 * r ?= den' with
        | Lt => Some lo
        | Gt => Some hi
        | Eq => Some (if Z.even lo then lo else hi)
        end
    | true, false => Some lo
    | false, true => Some hi
    | false, false => None
    end.

(** Search for the least number of significant digits [n], from [n]
    up to [n + fuel], at which a neighbour reads back; the result is
    [(c, s)], standing for [c * 10^s]. *)
Fixpoint shortest (fuel : nat) (m : positive) (e : Z) (num den k n : Z)
  : Z * Z :=
  match nearest_on_grid m e num den (k - n) with
  | Some c => (c, k - n)
  | None =>
      match fuel with
      | O => (div_half_even
                (if k - n <=? 0 then num * 10 ^ (n - k) else num)
                (if k - n <=? 0 then den else den * 10 ^ (k - n)), k - n)
      | S fuel' => shortest fuel' m e num den k (n + 1)
      end
  end.

Fixpoint strip_trailing_zeros_rev (r : list ascii) : list ascii :=
  match r with
  | c :: r' => if Ascii.eqb c "0" then strip_trailing_zeros_rev r' else r
  | [] => []
  end.

Definition strip_trailing_zeros (ds : list ascii) : list ascii :=
  rev (strip_trailing_zeros_rev (rev ds)).

(** Digits (no trailing zero) and decimal point position of the
    shortest decimal for [m * 2^e]: the value is [0.d1d2... * 10^decpt]. *)
Definition shortest_digits (m : positive) (e : Z) : list ascii * Z :=
  let num := if 0 <=? e then Zpos m * 2 ^ e else Zpos m in
  let den := if 0 <=? e then 1 else 2 ^ (- e) in
  let k := decimal_point num den in
  let '(c, s) := shortest 16 m e num den k 1 in
  let ds := Text.chars (Text.str_of_int c) in
  (strip_trailing_zeros ds, Z.of_nat (List.length ds) + s).

(** The exponent part of the scientific form: sign and at least two
    digits. *)
Definition exponent_text (x : Z) : list ascii :=
  let a := Text.chars (Text.str_of_int (Z.abs x)) in
  Text.chars "e" ++ (if x <? 0 then Text.chars "-" else Text.chars "+")
    ++ (if Z.abs x <? 10 then Text.chars "0" else []) ++ a.

(** Layout of [repr]: scientific when [decpt <= -4] or [decpt > 16],
    positional with at least one fractional digit otherwise. *)
Definition layout (ds : list ascii) (decpt : Z) : list ascii :=
  if (decpt <=? -4) || (16 <? decpt) then
    match ds with
    | [] => []
    | d :: [] => d :: exponent_text (decpt - 1)
    | d :: rest => d :: Text.chars "." ++ rest ++ exponent_text (decpt - 1)
    end
  else if decpt <=? 0 then
    Text.chars "0." ++ Text.repeat_char "0" (Z.to_nat (- decpt)) ++ ds
  else if Z.of_nat (List.length ds) <=? decpt then
    ds ++ Text.repeat_char "0" (Z.to_nat (decpt - Z.of_nat (List.length ds)))
       ++ Text.chars ".0"
  else
    firstn (Z.to_nat decpt) ds ++ Text.chars "." ++ skipn (Z.to_nat decpt) ds.

(** [repr(x)], which is also [str(x)] and what an f-string
    replacement field [{x}] with no format spec produces. *)
Definition repr (x : pyfloat) : string :=
  match x with
  | Nan => "nan"
  | Inf false => "inf"
  | Inf true => "-inf"
  | Zero false => "0.0"
  | Zero true => "-0.0"
  | Finite neg m e =>
      let '(ds, decpt) := shortest_digits m e in
      (if neg then "-" else "") ++ Text.text (layout ds decpt)
  end.

End Float.

(** ** Numerals outside ASCII *)

(** Before they read a [str], [int()] and [float()] replace every
    character outside ASCII: white space by a space, a decimal digit of
    any script by the ASCII digit of its value, and the first other
    character by a question mark that ends the text.  A text of ASCII
    characters only is taken as it is.  The tables are those of
    Unicode 14.0, the version of CPython 3.11. *)
Module Unicode.
Import Text.

(** The code points of a text, from its UTF-8 bytes. *)
Fixpoint decode (s : list ascii) : list Z :=
  match s with
  | [] => []
  | a :: r =>
      let x := code a in
      if x <? 128 then x :: decode r
      else if x <? 224 then
        match r with
        | b :: r' => ((x - 192) * 64 + (code b - 128)) :: decode r'
        | [] => [x]
        end
      else if x <? 240 then
        match r with
        | b :: c :: r' =>
            ((x - 224) * 4096 + (code b - 128) * 64 + (code c - 128))
              :: decode r'
        | _ => [x]
        end
      else
        match r with
        | b :: c :: d :: r' =>
            ((x - 240) * 262144 + (code b - 128) * 4096
             + (code c - 128) * 64 + (code d - 128)) :: decode r'
        | _ => [x]
        end
  end.

(** The first code point of each run of ten decimal digits (general
    category Nd) outside ASCII; the digit of value [i] of a run that
    starts at [b] is [b + i]. *)
Definition digit_runs : list Z :=
  [ 1632; 1776; 1984; 2406; 2534; 2662; 2790; 2918; 3046; 3174; 3302; 3430;
    3558; 3664; 3792; 3872; 4160; 4240; 6112; 6160; 6470; 6608; 6784; 6800;
    6992; 7088; 7232; 7248; 42528; 43216; 43264; 43472; 43504; 43600;
    44016; 65296; 66720; 68912; 69734; 69872; 69942; 70096; 70384; 70736;
    70864; 71248; 71360; 71472; 71904; 72016; 72784; 73040; 73120; 92768;
    92864; 93008; 120782; 120792; 120802; 120812; 120822; 123200; 123632;
    125264; 130032 ].

Definition decimal_value (cp : Z) : option Z :=
  match find (fun b => (b <=? cp) && (cp <? b + 10)) digit_runs with
  | Some b => Some (cp - b)
  | None => None
  end.

(** The white space outside ASCII. *)
Definition spaces : list Z :=
  [ 133; 160; 5760; 8192; 8193; 8194; 8195; 8196; 8197; 8198; 8199; 8200;
    8201; 8202; 8232; 8233; 8239; 8287; 12288 ].

Definition is_space (cp : Z) : bool := existsb (Z.eqb cp) spaces.

(** The replacement, code point by code point. *)
Fixpoint transform (cps : list Z) : list ascii :=
  match cps with
  | [] => []
  | cp :: r =>
      if cp <? 127 then char cp :: transform r
      else if is_space cp then " "%char :: transform r
      else
        match decimal_value cp with
        | Some d => char (48 + d) :: transform r
        | None => ["?"%char]
        end
  end.

Definition is_ascii_text (s : list ascii) : bool :=
  forallb (fun c => code c <? 128) s.

Definition to_ascii (s : list ascii) : list ascii :=
  if is_ascii_text s then s else transform (decode s).

End Unicode.

(** ** Numerals in text: [int(str)] and [float(str)] *)

Module Numeral.
Import Text.

(** White space stripped by [int()] and [float()]. *)
Definition is_space (c : ascii) : bool :=
  ((9 <=? code c) && (code c <=? 13)) || (code c =? 32).

Fixpoint lstrip (s : list ascii) : list ascii :=
  match s with
  | c :: s' => if is_space c then lstrip s' else s
  | [] => []
  end.

Definition strip (s : list ascii) : list ascii :=
  rev (lstrip (rev (lstrip s))).

(** Continuation of a digit part: [(["_"] digit)*].  Returns the
    digits read and the text left. *)
Fixpoint digitpart_tail (s : list ascii) : list ascii * list ascii :=
  match s with
  | c :: s' =>
      if is_digit c then
        let '(ds, r) := digitpart_tail s' in (c :: ds, r)
      else if Ascii.eqb c "_" then
        match s' with
        | d :: s'' =>
            if is_digit d then
              let '(ds, r) := digitpart_tail s'' in (d :: ds, r)
            else ([], s)
        | [] => ([], s)
        end
      else ([], s)
  | [] => ([], [])
  end.

(** [digitpart ::= digit (["_"] digit)*]. *)
Definition digitpart (s : list ascii) : option (list ascii * list ascii) :=
  match s with
  | c :: s' =>
      if is_digit c then
        let '(ds, r) := digitpart_tail s' in Some (c :: ds, r)
      else None
  | [] => None
  end.

(** An optional sign: [true] for "-". *)
Definition sign (s : list ascii) : bool * list ascii :=
  match s with
  | c :: s' =>
      if Ascii.eqb c "-" then (true, s')
      else if Ascii.eqb c "+" then (false, s')
      else (false, s)
  | [] => (false, [])
  end.

(** [int(s)] for a [str], base 10. *)
Definition int_of_str (s : string) : result Z :=
  let '(neg, r) := sign (strip (Unicode.to_ascii (chars s))) in
  match digitpart r with
  | Some (ds, []) => Ok (if neg then - digits_val ds else digits_val ds)
  | _ => Raise (ValueError InvalidLiteral)
  end.

Definition lower (c : ascii) : ascii :=
  if (65 <=? code c) && (code c <=? 90) then char (code c + 32) else c.

Definition is_word (w : string) (s : list ascii) : bool :=
  String.eqb w (text (map lower s)).

(** [number ::= [digitpart] "." digitpart | digitpart ["."]]: the
    integer digits, the fraction digits and the text left. *)
Definition number (s : list ascii)
  : option (list ascii * list ascii * list ascii) :=
  match digitpart s with
  | Some (ip, r) =>
      match r with
      | c :: r' =>
          if Ascii.eqb c "." then
            match digitpart r' with
            | Some (fp, r'') => Some (ip, fp, r'')
            | None => Some (ip, [], r')
            end
          else Some (ip, [], r)
      | [] => Some (ip, [], [])
      end
  | None =>
      match s with
      | c :: r' =>
          if Ascii.eqb c "." then
            match digitpart r' with
            | Some (fp, r'') => Some ([], fp, r'')
            | None => None
            end
          else None
      | [] => None
      end
  end.

(** [exponent ::= ("e" | "E") [sign] digitpart], when the text left
    is all of it; the empty text is exponent 0. *)
Definition exponent (s : list ascii) : option Z :=
  match s with
  | [] => Some 0
  | c :: r =>
      if Ascii.eqb (lower c) "e" then
        let '(neg, r') := sign r in
        match digitpart r' with
        | Some (ds, []) => Some (if neg then - digits_val ds else digits_val ds)
        | _ => None
        end
      else None
  end.

(** [float(s)] for a [str]. *)
Definition float_of_str (s : string) : result Float.pyfloat :=
  let '(neg, r) := sign (strip (Unicode.to_ascii (chars s))) in
  if is_word "inf" r || is_word "infinity" r then Ok (Float.Inf neg)
  else if is_word "nan" r then Ok Float.Nan
  else
    match number r with
    | Some (ip, fp, r') =>
        match exponent r' with
        | Some x =>
            Ok (Float.of_decimal neg (digits_val (ip ++ fp))
                  (x - Z.of_nat (List.length fp)))
        | None => Raise (ValueError InvalidLiteral)
        end
    | None => Raise (ValueError InvalidLiteral)
    end.

End Numeral.

(** ** Python objects *)

(** The objects [json.loads] returns. *)
#[warnings="-register-all"]
Inductive pyval : Type :=
| PNone
| PBool (b : bool)
| PInt (z : Z)
| PFloat (x : Float.pyfloat)
| PStr (s : string)
| PList (l : list pyval)
| PDict (d : list (string * pyval)).

(** A [dict] with [str] keys, in insertion order. *)
Module Dict.

Definition t : Type := list (string * pyval).

(** [d.get(k)] as an option; [d[k]] when present. *)
Fixpoint lookup (k : string) (d : t) : option pyval :=
  match d with
  | [] => None
  | (k', v) :: d' => if String.eqb k k' then Some v else lookup k d'
  end.

(** [k in d]. *)
Definition mem (k : string) (d : t) : bool :=
  match lookup k d with Some _ => true | None => false end.

(** [d[k] = v]: an existing key keeps its position. *)
Fixpoint set (k : string) (v : pyval) (d : t) : t :=
  match d with
  | [] => [(k, v)]
  | (k', v') :: d' =>
      if String.eqb k k' then (k', v) :: d' else (k', v') :: set k v d'
  end.

(** [dict(pairs)]. *)
Definition of_pairs (pairs : list (string * pyval)) : t :=
  fold_left (fun d kv => set (fst kv) (snd kv) d) pairs [].

End Dict.

(** ** [json.loads] *)

Module Json.
Import Text.

(** JSON white space: space, tab, line feed, carriage return. *)
Definition is_ws (c : ascii) : bool :=
  (code c =? 32) || (code c =? 9) || (code c =? 10) || (code c =? 13).

Fixpoint skip_ws (s : list ascii) : list ascii :=
  match s with
  | c :: s' => if is_ws c then skip_ws s' else s
  | [] => []
  end.

(** [s] starts with the word [w]: the text after it. *)
Definition after_word (w : string) (s : list ascii) : option (list ascii) :=
  if is_prefix (chars w) s
  then Some (skipn (String.length w) s) else None.

Fixpoint take_digits (s : list ascii) : list ascii * list ascii :=
  match s with
  | c :: s' =>
      if is_digit c then let '(ds, r) := take_digits s' in (c :: ds, r)
      else ([], s)
  | [] => ([], [])
  end.

(** The integer part [0 | [1-9][0-9]*]. *)
Definition int_digits (s : list ascii) : option (list ascii * list ascii) :=
  match s with
  | c :: s' =>
      if Ascii.eqb c "0" then Some ([c], s')
      else if is_digit c then
        let '(ds, r) := take_digits s' in Some (c :: ds, r)
      else None
  | [] => None
  end.

(** The optional fraction [\.[0-9]+]. *)
Definition frac_digits (s : list ascii) : option (list ascii * list ascii) :=
  match s with
  | c :: s' =>
      if Ascii.eqb c "." then
        match take_digits s' with
        | ([], _) => None
        | (ds, r) => Some (ds, r)
        end
      else None
  | [] => None
  end.

(** The optional exponent [[eE][-+]?[0-9]+]. *)
Definition exp_digits (s : list ascii) : option (Z * list ascii) :=
  match s with
  | c :: s' =>
      if Ascii.eqb c "e" || Ascii.eqb c "E" then
        let '(neg, r) := Numeral.sign s' in
        match take_digits r with
        | ([], _) => None
        | (ds, r') => Some (if neg then - digits_val ds else digits_val ds, r')
        end
      else None
  | [] => None
  end.

(** A number: an [int] when it has neither fraction nor exponent, a
    [float] otherwise. *)
Definition parse_number (s : list ascii) : option (pyval * list ascii) :=
  let '(neg, r) :=
    match s with
    | c :: s' => if Ascii.eqb c "-" then (true, s') else (false, s)
    | [] => (false, [])
    end in
  match int_digits r with
  | None => None
  | Some (ip, r1) =>
      match frac_digits r1, exp_digits r1 with
      | None, None =>
          Some (PInt (if neg then - digits_val ip else digits_val ip), r1)
      | None, Some (x, r2) =>
          Some (PFloat (Float.of_decimal neg (digits_val ip) x), r2)
      | Some (fp, r2), _ =>
          let k := Z.of_nat (List.length fp) in
          match exp_digits r2 with
          | Some (x, r3) =>
              Some (PFloat (Float.of_decimal neg (digits_val (ip ++ fp)) (x - k)), r3)
          | None =>
              Some (PFloat (Float.of_decimal neg (digits_val (ip ++ fp)) (- k)), r2)
          end
      end
  end.

Definition hex_val (c : ascii) : option Z :=
  let n := code c in
  if is_digit c then Some (n - 48)
  else if (97 <=? n) && (n <=? 102) then Some (n - 87)
  else if (65 <=? n) && (n <=? 70) then Some (n - 55)
  else None.

(** Four hex digits of a [\uXXXX] escape. *)
Definition hex4 (s : list ascii) : option (Z * list ascii) :=
  match s with
  | a :: b :: c :: d :: r =>
      match hex_val a, hex_val b, hex_val c, hex_val d with
      | Some x, Some y, Some z, Some w =>
          Some (((x * 16 + y) * 16 + z) * 16 + w, r)
      | _, _, _, _ => None
      end
  | _ => None
  end.

(** UTF-8 bytes of a code point. *)
Definition utf8 (cp : Z) : list ascii :=
  if cp <? 128 then [char cp]
  else if cp <? 2048 then
    [char (192 + cp / 64); char (128 + cp mod 64)]
  else if cp <? 65536 then
    [char (224 + cp / 4096); char (128 + (cp / 64) mod 64);
     char (128 + cp mod 64)]
  else
    [char (240 + cp / 262144); char (128 + (cp / 4096) mod 64);
     char (128 + (cp / 64) mod 64); char (128 + cp mod 64)].

Definition simple_escape (c : ascii) : option ascii :=
  let n := code c in
  if n =? 34 then Some (char 34)            (* quote *)
  else if n =? 92 then Some (char 92)       (* backslash *)
  else if n =? 47 then Some (char 47)       (* solidus *)
  else if n =? 98 then Some (char 8)        (* backspace *)
  else if n =? 102 then Some (char 12)      (* form feed *)
  else if n =? 110 then Some (char 10)      (* line feed *)
  else if n =? 114 then Some (char 13)      (* carriage return *)
  else if n =? 116 then Some (char 9)       (* tab *)
  else None.

(** The body of a string after its opening quote (strict mode: no raw
    control character).  A high surrogate escape followed by a low
    one is one code point. *)
Fixpoint scanstring (fuel : nat) (s : list ascii) (acc : list ascii)
  : option (string * list ascii) :=
  match fuel with
  | O => None
  | S fuel' =>
      match s with
      | [] => None
      | c :: r =>
          if code c =? 34 then Some (text (rev acc), r)
          else if code c =? 92 then
            match r with
            | [] => None
            | e :: r' =>
                if Ascii.eqb e "u" then
                  match hex4 r' with
                  | None => None
                  | Some (u, r'') =>
                      let pair :=
                        if (55296 <=? u) && (u <=? 56319) then
                          match r'' with
                          | b :: v :: t =>
                              if (code b =? 92) && Ascii.eqb v "u" then
                                match hex4 t with
                                | Some (u2, t') =>
                                    if (56320 <=? u2) && (u2 <=? 57343)
                                    then Some (65536 + (u - 55296) * 1024
                                               + (u2 - 56320), t')
                                    else None
                                | None => None
                                end
                              else None
                          | _ => None
                          end
                        else None in
                      match pair with
                      | Some (cp, t') =>
                          scanstring fuel' t' (rev (utf8 cp) ++ acc)
                      | None =>
                          scanstring fuel' r'' (rev (utf8 u) ++ acc)
                      end
                  end
                else
                  match simple_escape e with
                  | Some x => scanstring fuel' r' (x :: acc)
                  | None => None
                  end
            end
          else if code c <? 32 then None
          else scanstring fuel' r (c :: acc)
      end
  end.

(** The values that are neither strings nor containers: [null],
    [true], [false], a number, and the constants [NaN], [Infinity] and
    [-Infinity] that Python reads too. *)
Definition scan_literal (s : list ascii) : option (pyval * list ascii) :=
  match after_word "null" s, after_word "true" s, after_word "false" s with
  | Some r', _, _ => Some (PNone, r')
  | _, Some r', _ => Some (PBool true, r')
  | _, _, Some r' => Some (PBool false, r')
  | None, None, None =>
      match parse_number s with
      | Some x => Some x
      | None =>
          match after_word "NaN" s, after_word "Infinity" s,
                after_word "-Infinity" s with
          | Some r', _, _ => Some (PFloat Float.Nan, r')
          | _, Some r', _ => Some (PFloat (Float.Inf false), r')
          | _, _, Some r' => Some (PFloat (Float.Inf true), r')
          | None, None, None => None
          end
      end
  end.

(** The scanner.  [scan_once] reads one value; [array_items] reads
    the elements of an array from the start of an element, and
    [object_items] the members of an object after the opening quote
    of a key.  Every call consumes input, so a fuel of twice the
    length of the text is never exhausted ([scan_once_fuel] below). *)
Fixpoint scan_once (fuel : nat) (s : list ascii)
  : option (pyval * list ascii) :=
  match fuel with
  | O => None
  | S fuel' =>
      match s with
      | [] => None
      | c :: r =>
          if code c =? 34 then
            match scanstring (S (List.length r)) r [] with
            | Some (k, r') => Some (PStr k, r')
            | None => None
            end
          else if Ascii.eqb c "{" then
            match skip_ws r with
            | d :: r' =>
                if Ascii.eqb d "}" then Some (PDict [], r')
                else if code d =? 34 then object_items fuel' r' []
                else None
            | [] => None
            end
          else if Ascii.eqb c "[" then
            match skip_ws r with
            | d :: r' =>
                if Ascii.eqb d "]" then Some (PList [], r')
                else array_items fuel' (d :: r') []
            | [] => None
            end
          else scan_literal s
      end
  end

with array_items (fuel : nat) (s : list ascii) (acc : list pyval)
  : option (pyval * list ascii) :=
  match fuel with
  | O => None
  | S fuel' =>
      match scan_once fuel' s with
      | None => None
      | Some (v, r) =>
          match skip_ws r with
          | d :: r' =>
              if Ascii.eqb d "]" then Some (PList (rev (v :: acc)), r')
              else if Ascii.eqb d ","
              then array_items fuel' (skip_ws r') (v :: acc)
              else None
          | [] => None
          end
      end
  end

with object_items (fuel : nat) (s : list ascii)
                  (acc : list (string * pyval))
  : option (pyval * list ascii) :=
  match fuel with
  | O => None
  | S fuel' =>
      match scanstring (S (List.length s)) s [] with
      | None => None
      | Some (k, r) =>
          match skip_ws r with
          | c :: r1 =>
              if Ascii.eqb c ":" then
                match scan_once fuel' (skip_ws r1) with
                | None => None
                | Some (v, r2) =>
                    match skip_ws r2 with
                    | d :: r3 =>
                        if Ascii.eqb d "}" then
                          Some (PDict (Dict.of_pairs (rev ((k, v) :: acc))), r3)
                        else if Ascii.eqb d "," then
                          match skip_ws r3 with
                          | q :: r4 =>
                              if code q =? 34
                              then object_items fuel' r4 ((k, v) :: acc)
                              else None
                          | [] => None
                          end
                        else None
                    | [] => None
                    end
                end
              else None
          | [] => None
          end
      end
  end.

(** [json.loads(s)]: one value, with white space around it and
    nothing else. *)
Definition loads (s : string) : result pyval :=
  let cs := skip_ws (chars s) in
  match scan_once (2 * List.length cs + 2) cs with
  | Some (v, r) =>
      match skip_ws r with
      | [] => Ok v
      | _ :: _ => Raise JSONDecodeError
      end
  | None => Raise JSONDecodeError
  end.

End Json.

(** ** The builtins [int()], [float()], [in], indexing and [get] *)

(** [int(v)]. *)
Definition py_int (v : pyval) : result Z :=
  match v with
  | PBool b => Ok (if b then 1 else 0)
  | PInt z => Ok z
  | PFloat x => Float.to_int x
  | PStr s => Numeral.int_of_str s
  | PNone | PList _ | PDict _ => Raise TypeError
  end.

(** [float(v)]. *)
Definition py_float (v : pyval) : result Float.pyfloat :=
  match v with
  | PBool b => Float.of_int (if b then 1 else 0)
  | PInt z => Float.of_int z
  | PFloat x => Ok x
  | PStr s => Numeral.float_of_str s
  | PNone | PList _ | PDict _ => Raise TypeError
  end.

(** [key in v] for a [str] key: key membership in a dict, element
    membership in a list (only a [str] equals a [str]), substring test on
    a [str]; the other objects are not containers. *)
Definition py_in (key : string) (v : pyval) : result bool :=
  match v with
  | PDict d => Ok (Dict.mem key d)
  | PList l =>
      Ok (existsb (fun x => match x with
                            | PStr s => String.eqb key s
                            | _ => false
                            end) l)
  | PStr s => Ok (Text.is_substring (Text.chars key) (Text.chars s))
  | PNone | PBool _ | PInt _ | PFloat _ => Raise TypeError
  end.

(** [v[key]] for a [str] key. *)
Definition py_getitem (v : pyval) (key : string) : result pyval :=
  match v with
  | PDict d =>
      match Dict.lookup key d with
      | Some x => Ok x
      | None => Raise KeyError
      end
  | _ => Raise TypeError
  end.

(** [v.get(key)]. *)
Definition py_get (v : pyval) (key : string) : result pyval :=
  match v with
  | PDict d =>
      match Dict.lookup key d with
      | Some x => Ok x
      | None => Ok PNone
      end
  | _ => Raise AttributeError
  end.

(** [all(key in v for key in keys)]: stops at the first [False]. *)
Fixpoint all_in (keys : list string) (v : pyval) : result bool :=
  match keys with
  | [] => Ok true
  | k :: ks =>
      match py_in k v with
      | inl e => Raise e
      | inr false => Ok false
      | inr true => all_in ks v
      end
  end.

Definition bind {A B} (r : result A) (f : A -> result B) : result B :=
  match r with
  | inl e => inl e
  | inr x => f x
  end.

Notation "x <- r ;; k" := (bind r (fun x => k))
  (at level 61, r at next level, right associativity).

(** ** class Point *)

Record Point : Type := mkPoint {
  id : Z;
  latitude : Float.pyfloat;
  longitude : Float.pyfloat;
  title : pyval
}.

(** ** class YandexMapGenerator *)

Record YandexMapGenerator : Type := mkGenerator {
  _zoom : Z;
  _lang : string;
  _points : list Point
}.

Definition default_zoom : Z := 5.
Definition default_lang : string := "ru_RU".

(** [YandexMapGenerator(zoom, lang)]. *)
Definition __init__ (zoom : Z) (lang : string) : YandexMapGenerator :=
  {| _zoom := zoom; _lang := lang; _points := [] |}.

(** A method: outcome and the object afterwards. *)
Definition method (A : Type) : Type :=
  YandexMapGenerator -> result A * YandexMapGenerator.

Definition set_points (self : YandexMapGenerator) (ps : list Point)
  : YandexMapGenerator :=
  {| _zoom := _zoom self; _lang := _lang self; _points := ps |}.

Definition required_keys : list string := ["id"; "latitude"; "longitude"].

(** The call [Point(int(point["id"]), float(point["latitude"]),
    float(point["longitude"]), point.get("title"))], arguments evaluated
    left to right. *)
Definition make_point (point : pyval) : result Point :=
  i <- (v <- py_getitem point "id" ;; py_int v) ;;
  la <- (v <- py_getitem point "latitude" ;; py_float v) ;;
  lo <- (v <- py_getitem point "longitude" ;; py_float v) ;;
  t <- py_get point "title" ;;
  Ok (mkPoint i la lo t).

(** The body of the [for point in data] loop of [_parse_points]. *)
Fixpoint parse_loop (data : list pyval) : method unit :=
  fun self =>
    match data with
    | [] => (Ok tt, self)
    | point :: rest =>
        match all_in required_keys point with
        | inl e => (Raise e, self)
        | inr false => (Raise (ValueError MissingKeys), self)
        | inr true =>
            match make_point point with
            | inl e => (Raise e, self)
            | inr p => parse_loop rest (set_points self (_points self ++ [p]))
            end
        end
    end.

Definition _parse_points (data : pyval) : method unit :=
  fun self =>
    match data with
    | PList l => parse_loop l (set_points self [])
    | _ => (Raise (ValueError NotAList), self)
    end.

(** The file system as [load_points] sees it: [None] when
    [os.path.isfile] is false for the name, otherwise what opening and
    reading the file as UTF-8 text gives. *)
Definition filesystem : Type := string -> option (result string).

(** The [except] clause logs and re-raises, so every exception passes
    through unchanged. *)
Definition load_points (fs : filesystem) (json_input : string) : method unit :=
  fun self =>
    let data :=
      match fs json_input with
      | Some file => contents <- file ;; Json.loads contents
      | None => Json.loads json_input
      end in
    match data with
    | inl e => (Raise e, self)
    | inr d => _parse_points d self
    end.

(** ** [urllib.parse.urlencode] *)

Module Url.
Import Text.

(** Characters [quote] never escapes: letters, digits and [_.-~]. *)
Definition always_safe (c : ascii) : bool :=
  let n := code c in
  ((65 <=? n) && (n <=? 90)) || ((97 <=? n) && (n <=? 122))
  || is_digit c
  || (n =? 95) || (n =? 46) || (n =? 45) || (n =? 126).

Definition hex_digit (n : Z) : ascii :=
  if n <? 10 then char (48 + n) else char (55 + n).

(** [quote_plus] on one byte: kept, [+] for a space, [%XX] otherwise. *)
Definition quote_byte (c : ascii) : list ascii :=
  if always_safe c then [c]
  else if code c =? 32 then ["+"%char]
  else ["%"%char; hex_digit (code c / 16); hex_digit (code c mod 16)].

Definition quote_plus (s : string) : string :=
  text (flat_map quote_byte (chars s)).

(** [urlencode(params)] for a dict of [str] keys, given with the
    [str()] of its values, in insertion order. *)
Definition urlencode (params : list (string * string)) : string :=
  String.concat "&"
    (map (fun kv => (quote_plus (fst kv) ++ "=" ++ quote_plus (snd kv))%string)
       params).

End Url.

(** ** URL generation *)

Definition base_url : string := "https://maps.yandex.ru/".

(** The f-string [f"{p.longitude},{p.latitude},pmwtm{p.id}"]. *)
Definition marker_token (p : Point) : string :=
  Float.repr (longitude p) ++ "," ++ Float.repr (latitude p)
    ++ ",pmwtm" ++ Text.str_of_int (id p).

(** The f-string [f"{p.longitude},{p.latitude}"] of the map centre. *)
Definition center_of (p : Point) : string :=
  Float.repr (longitude p) ++ "," ++ Float.repr (latitude p).

(** The [params] dict of [generate_map_url] when the first point is
    [p0], each value as [urlencode] sees it (its [str()]). *)
Definition map_params (self : YandexMapGenerator) (p0 : Point)
  : list (string * string) :=
  [ ("ll", center_of p0);
    ("z", Text.str_of_int (_zoom self));
    ("lang", _lang self);
    ("pt", String.concat "~" (map marker_token (_points self))) ].

Definition generate_map_url (self : YandexMapGenerator) : result string :=
  match _points self with
  | [] => Raise (ValueError NoPoints)
  | p0 :: _ => Ok (base_url ++ "?" ++ Url.urlencode (map_params self p0))%string
  end.

(** [display_map]: the URL handed to [webbrowser.open]. *)
Definition display_map (self : YandexMapGenerator) : result string :=
  generate_map_url self.

(** ** The command line *)

(** The namespace [parser.parse_args()] returns. *)
Record arguments : Type := mkArguments {
  json_input : option string;
  stdin : bool
}.

(** A [str] or [None] in a condition: [None] and the empty text are false. *)
Definition truthy (a : option string) : option string :=
  match a with
  | Some EmptyString => None
  | other => other
  end.

(** [main()] from line 91 on, given the namespace that [parse_args]
    returned at line 90: the URL opened in the browser, or the exception
    that ends the run.  [stdin_text] is what [sys.stdin.read()]
    returns. *)
Definition main (fs : filesystem) (stdin_text : string) (args : arguments)
  : result string :=
  let map_generator := __init__ default_zoom default_lang in
  let loaded :=
    if stdin args then
      load_points fs stdin_text map_generator
    else
      match truthy (json_input args) with
      | Some input => load_points fs input map_generator
      | None => (Raise SystemExit, map_generator)
      end in
  match loaded with
  | (inl e, _) => Raise e
  | (inr _, map_generator') => display_map map_generator'
  end.

(** A JSON text written with apostrophes for the double quotes, which a
    string literal here cannot hold. *)
Definition json_text (s : string) : string :=
  Text.text (map (fun c => if Ascii.eqb c "'" then Text.char 34 else c)
               (Text.chars s)).

(** * Vocabulary of the properties *)

(** A well-formed point object: a mapping that has the three required
    keys, with an [id] that [int()] accepts and a [latitude] and
    [longitude] that [float()] accepts. *)
Definition well_formed (v : pyval) : bool :=
  match v with
  | PDict d =>
      match Dict.lookup "id" d, Dict.lookup "latitude" d,
            Dict.lookup "longitude" d with
      | Some i, Some la, Some lo =>
          is_ok (py_int i) && is_ok (py_float la) && is_ok (py_float lo)
      | _, _, _ => false
      end
  | _ => false
  end.

(** A mapping that lacks one of the required keys. *)
Definition missing_key (v : pyval) : bool :=
  match v with
  | PDict d => negb (forallb (fun k => Dict.mem k d) required_keys)
  | _ => false
  end.

(** A mapping that has the three required keys, one of them with a
    value that its conversion rejects. *)
Definition coercion_fails (v : pyval) : bool :=
  match v with
  | PDict d =>
      match Dict.lookup "id" d, Dict.lookup "latitude" d,
            Dict.lookup "longitude" d with
      | Some i, Some la, Some lo =>
          negb (is_ok (py_int i) && is_ok (py_float la) && is_ok (py_float lo))
      | _, _, _ => false
      end
  | _ => false
  end.

(** [p] is the point loaded from the object [v]. *)
Definition loaded_from (v : pyval) (p : Point) : Prop :=
  make_point v = Ok p.

(** Two points that agree on everything but the title. *)
Definition same_but_title (p q : Point) : Prop :=
  id p = id q /\ latitude p = latitude q /\ longitude p = longitude q.

(** Truncation of a rational toward zero. *)
Definition Qtruncate (q : Q) : Z :=
  if Qle_bool 0 q then Qfloor q else Qceiling q.

(** A decimal integer numeral: an optional minus sign and one or more
    digits. *)
Definition int_numeral (neg : bool) (ds : list ascii) : string :=
  Text.text ((if neg then ["-"%char] else []) ++ ds).

(** What is stored for an id given as a finite float, its value
    truncated toward zero, or as a text that [int()] reads, the integer
    read. *)
Inductive id_denotes : pyval -> Z -> Prop :=
| id_of_float : forall x,
    Float.is_finite x = true ->
    id_denotes (PFloat x) (Qtruncate (Float.to_Q x))
| id_of_text : forall s n,
    Numeral.int_of_str s = Ok n ->
    id_denotes (PStr s) n.

(** Parsing a text as JSON and loading the points from the value. *)
Definition load_text (contents : string) : method unit :=
  fun self =>
    match Json.loads contents with
    | inl e => (Raise e, self)
    | inr d => _parse_points d self
    end.

(** The text a [str] input stands for: the contents of the file it
    names, or the input itself when it names no file. *)
Inductive resolves (fs : filesystem) (input : string) : string -> Prop :=
| from_file : forall contents,
    fs input = Some (Ok contents) -> resolves fs input contents
| from_text :
    fs input = None -> resolves fs input input.

(** A file system with no file at all, and one with a single file. *)
Definition no_files : filesystem := fun _ => None.

Definition one_file (name contents : string) : filesystem :=
  fun path => if String.eqb path name then Some (Ok contents) else None.

(** The inputs of the worked examples. *)
Definition two_points_text : string :=
  json_text "[{'id':1,'latitude':55.75,'longitude':37.62,'title':'A'},{'id':2,'latitude':59.93,'longitude':30.33}]".

Definition one_point_text : string :=
  json_text "[{'id':1,'latitude':10.0,'longitude':20.0}]".

Definition stdin_only : arguments := {| json_input := None; stdin := true |}.

(** A point object with exactly the three required keys. *)
Definition point_object (i la lo : pyval) : pyval :=
  PDict [("id", i); ("latitude", la); ("longitude", lo)].

(** A list whose second element has an id that [int()] rejects and
    whose third element has no key at all. *)
Definition null_id_then_empty : list pyval :=
  [ point_object (PInt 1) (PInt 10) (PInt 20);
    point_object PNone (PInt 10) (PInt 20);
    PDict [] ].

(** A list whose second element has no key at all and whose third
    element has an id that [int()] rejects. *)
Definition empty_then_bad_id : list pyval :=
  [ point_object (PInt 1) (PInt 10) (PInt 20);
    PDict [];
    point_object (PStr "x") (PInt 10) (PInt 20) ].

(** A valid JSON text whose id is a number beyond the binary64 range. *)
Definition huge_id_text : string :=
  json_text "[{'id':1e400,'latitude':10.0,'longitude':20.0}]".

(** A JSON text whose id is the float 1.9. *)
Definition float_id_text : string :=
  json_text "[{'id':1.9,'latitude':10.0,'longitude':20.0}]".

(** * The log *)

(** The [logging] calls of the program, as the records they emit.  A
    record is its level and its message; the text of a message is
    given by the source line it comes from and the values formatted
    into it.  [logging.basicConfig(level=INFO)] in the constructor lets
    both levels through. *)
Inductive level : Type := INFO | ERROR.

Inductive message : Type :=
| LoadedPoints (n : nat)      (* line 42: the number of points loaded *)
| InputIsFile (path : string) (* line 48: the input is a file *)
| InputIsText                 (* line 52: the input is a JSON string *)
| ParseFailed (e : exc)       (* line 58: JSON parsing error, with the error *)
| UrlIs (url : string)        (* line 75: the URL *)
| MapOpened.                  (* line 82: the map is opened *)

Definition record : Type := (level * message)%type.

(** The clause [except (json.JSONDecodeError, ValueError)]: the
    exceptions it catches.  [TypeError], [OverflowError], [KeyError],
    [OSError] and the others are not instances of [ValueError]. *)
Definition caught (e : exc) : bool :=
  match e with
  | ValueError _ | JSONDecodeError => true
  | _ => false
  end.

(** The methods with the records they emit, in order. *)
Module Logged.

(** Line 42 is the last statement of [_parse_points]: it runs when
    the loop has ended without an exception. *)
Definition _parse_points (data : pyval) (self : YandexMapGenerator)
  : (result unit * YandexMapGenerator) * list record :=
  match _parse_points data self with
  | (inr tt, self') =>
      ((Ok tt, self'), [(INFO, LoadedPoints (List.length (_points self')))])
  | (inl e, self') => ((Raise e, self'), [])
  end.

(** The handler of [load_points]: an error record for a caught
    exception, which is raised again; nothing for the others. *)
Definition handler (e : exc) : list record :=
  if caught e then [(ERROR, ParseFailed e)] else [].

Definition load_points (fs : filesystem) (json_input : string)
           (self : YandexMapGenerator)
  : (result unit * YandexMapGenerator) * list record :=
  let detected :=
    match fs json_input with
    | Some _ => [(INFO, InputIsFile json_input)]
    | None => [(INFO, InputIsText)]
    end in
  let data :=
    match fs json_input with
    | Some file => contents <- file ;; Json.loads contents
    | None => Json.loads json_input
    end in
  match data with
  | inl e => ((Raise e, self), detected ++ handler e)
  | inr d =>
      match _parse_points d self with
      | ((inl e, self'), l) => ((Raise e, self'), detected ++ l ++ handler e)
      | ((inr tt, self'), l) => ((Ok tt, self'), detected ++ l)
      end
  end.

Definition generate_map_url (self : YandexMapGenerator)
  : result string * list record :=
  match generate_map_url self with
  | inr url => (Ok url, [(INFO, UrlIs url)])
  | inl e => (Raise e, [])
  end.

(** [display_map]: the URL handed to [webbrowser.open], then line 82. *)
Definition display_map (self : YandexMapGenerator)
  : result string * list record :=
  match generate_map_url self with
  | (inr url, l) => (Ok url, l ++ [(INFO, MapOpened)])
  | (inl e, l) => (Raise e, l)
  end.

Definition main (fs : filesystem) (stdin_text : string) (args : arguments)
  : result string * list record :=
  let map_generator := __init__ default_zoom default_lang in
  let loaded :=
    if stdin args then
      load_points fs stdin_text map_generator
    else
      match truthy (json_input args) with
      | Some input => load_points fs input map_generator
      | None => ((Raise SystemExit, map_generator), [])
      end in
  match loaded with
  | ((inl e, _), l) => (Raise e, l)
  | ((inr _, map_generator'), l) =>
      let '(r, l') := display_map map_generator' in (r, l ++ l')
  end.

End Logged.

(** * Vocabulary of the further properties *)

(** The text [main] hands to [load_points]: standard input with
    [--stdin], otherwise the positional argument when it is given and
    not empty. *)
Definition source (args : arguments) (stdin_text : string) : option string :=
  if stdin args then Some stdin_text else truthy (json_input args).

(** [s.split(sep)] for a one-character separator. *)
Fixpoint split_on (sep : ascii) (s : list ascii) : list (list ascii) :=
  match s with
  | [] => [[]]
  | c :: r =>
      if Ascii.eqb c sep then [] :: split_on sep r
      else
        match split_on sep r with
        | h :: t => (c :: h) :: t
        | [] => [[c]]
        end
  end.

(** The characters of a float's [repr] and of an int's [str]: digits,
    sign, point, exponent mark and the letters of [inf] and [nan]. *)
Definition numeric_char (c : ascii) : bool :=
  Text.is_digit c
  || existsb (Ascii.eqb c) (Text.chars "-+.einfa").

(** The characters of a percent-encoded query string. *)
Definition query_char (c : ascii) : bool :=
  Url.always_safe c || existsb (Ascii.eqb c) (Text.chars "%+&=").

(** Two point objects that differ at most in the presence or the value
    of the title. *)
Inductive title_variant : pyval -> pyval -> Prop :=
| variant_same : forall v, title_variant v v
| variant_set : forall d t,
    title_variant (PDict d) (PDict (Dict.set "title" t d))
| variant_unset : forall d t,
    title_variant (PDict (Dict.set "title" t d)) (PDict d).

(** A key that [_parse_points] reads. *)
Definition read_key (k : string) : bool :=
  existsb (String.eqb k) ["id"; "latitude"; "longitude"; "title"].

(** A file system whose files can all be read. *)
Definition readable (fs : filesystem) : Prop :=
  forall path e, fs path <> Some (Raise e).

(** Outcomes of the constructor call that agree up to the title. *)
Definition same_outcome_but_title (r1 r2 : result Point) : Prop :=
  match r1, r2 with
  | inr p, inr q => same_but_title p q
  | inl e, inl e' => e = e'
  | _, _ => False
  end.


(** Reading a query string back.  [unquote_plus] undoes [quote_plus]
    on the bytes of a text: [+] is a space and [%XX] the byte [XX]. *)
Fixpoint unquote_plus (s : list ascii) : list ascii :=
  match s with
  | [] => []
  | c :: s' =>
      if Ascii.eqb c "+" then " "%char :: unquote_plus s'
      else if Ascii.eqb c "%" then
        match s' with
        | a :: b :: r =>
            match Json.hex_val a, Json.hex_val b with
            | Some x, Some y => Text.char (16 * x + y) :: unquote_plus r
            | _, _ => c :: unquote_plus s'
            end
        | _ => c :: unquote_plus s'
        end
      else c :: unquote_plus s'
  end.

(** The text before and after the first [sep]. *)
Fixpoint cut (sep : ascii) (s : list ascii)
  : option (list ascii * list ascii) :=
  match s with
  | [] => None
  | c :: r =>
      if Ascii.eqb c sep then Some ([], r)
      else
        match cut sep r with
        | Some (a, b) => Some (c :: a, b)
        | None => None
        end
  end.

(** The pairs of a query string: its parts between [&], each cut at
    its first [=] and unquoted. *)
Definition query_pairs (q : list ascii) : list (string * string) :=
  map (fun part =>
         match cut "=" part with
         | Some (k, v) => (Text.text (unquote_plus k), Text.text (unquote_plus v))
         | None => (Text.text (unquote_plus part), "")
         end)
      (split_on "&" q).

(** A collection of one point at the origin, and the data of the
    one-point text. *)
Definition origin_point : Point :=
  mkPoint 1 (Float.Zero false) (Float.Zero false) PNone.

Definition origin_generator : YandexMapGenerator :=
  mkGenerator default_zoom default_lang [origin_point].

Definition one_point_data : list pyval :=
  [ point_object (PInt 1)
      (PFloat (Float.Finite false 5629499534213120 (-49)))
      (PFloat (Float.Finite false 5629499534213120 (-48))) ].

Definition positional (input : string) : arguments :=
  {| json_input := Some input; stdin := false |}.

(** The marker token of a point object, from the values of the
    object itself: the text of its longitude as a float, a comma, the
    text of its latitude as a float, and [pmwtm] followed by the text
    of its id as an int.  (The empty text for an object that is not
    well-formed.) *)
Definition object_token (v : pyval) : string :=
  match v with
  | PDict d =>
      match Dict.lookup "id" d, Dict.lookup "latitude" d,
            Dict.lookup "longitude" d with
      | Some i, Some la, Some lo =>
          match py_int i, py_float la, py_float lo with
          | inr n, inr x, inr y =>
              Float.repr y ++ "," ++ Float.repr x ++ ",pmwtm"
                ++ Text.str_of_int n
          | _, _, _ => ""
          end
      | _, _, _ => ""
      end
  | _ => ""
  end.

(** The value of the first pair named [k] among the pairs of a query. *)
Fixpoint param (k : string) (pairs : list (string * string)) : option string :=
  match pairs with
  | [] => None
  | (k', v) :: rest => if String.eqb k k' then Some v else param k rest
  end.

(** A collection of two points: the origin, and the point of
    longitude 1 and latitude 0. *)
Definition two_point_generator : YandexMapGenerator :=
  mkGenerator default_zoom default_lang
    [ origin_point;
      mkPoint 2 (Float.Zero false)
              (Float.Finite false 4503599627370496 (-52)) PNone ].

(** The id twelve in Arabic-Indic digits (U+0661 U+0662), as the UTF-8
    bytes of the text. *)
Definition arabic_twelve : string :=
  Text.text (map Text.char [217; 161; 217; 162]).

(** Inputs of the instances below. *)
Definition two_objects : list pyval :=
  [ point_object (PInt 1) (PInt 10) (PInt 20);
    point_object (PInt 2) (PInt 30) (PInt 40) ].

(** * Properties *)

(** ** The JSON scanner and its fuel *)

Section JsonFuel.
Import Text Json.
Local Open Scope nat_scope.

Lemma skip_ws_length (s : list ascii) :
  List.length (skip_ws s) <= List.length s.
Proof.
  induction s as [|c s IH]; [reflexivity|].
  cbn [skip_ws]. destruct (is_ws c); cbn [List.length]; lia.
Qed.

Lemma take_digits_length (s ds r : list ascii) :
  take_digits s = (ds, r) -> List.length r <= List.length s.
Proof.
  revert ds r. induction s as [|c s IH]; intros ds r H; cbn [take_digits] in H.
  - inversion H. reflexivity.
  - destruct (is_digit c).
    + destruct (take_digits s) as [ds' r'] eqn:E. inversion H; subst.
      specialize (IH _ _ eq_refl). cbn [List.length]. lia.
    + inversion H. reflexivity.
Qed.

Lemma sign_length (s r : list ascii) (neg : bool) :
  Numeral.sign s = (neg, r) -> List.length r <= List.length s.
Proof.
  destruct s as [|c s]; cbn [Numeral.sign]; intros H.
  - inversion H. reflexivity.
  - destruct (Ascii.eqb c "-"); [|destruct (Ascii.eqb c "+")];
      inversion H; cbn [List.length]; lia.
Qed.

Lemma after_word_length (w : string) (s r : list ascii) :
  w <> "" -> after_word w s = Some r -> List.length r < List.length s.
Proof.
  unfold after_word. intros Hw H.
  destruct (is_prefix (chars w) s) eqn:Hp; [|discriminate].
  inversion H; subst. rewrite length_skipn.
  destruct w as [|a w]; [now elim Hw|].
  destruct s as [|c s]; [discriminate Hp|].
  cbn [String.length List.length]. lia.
Qed.

Lemma int_digits_length (s ds r : list ascii) :
  int_digits s = Some (ds, r) -> List.length r < List.length s.
Proof.
  destruct s as [|c s]; cbn [int_digits]; [discriminate|].
  destruct (Ascii.eqb c "0").
  - intros H. inversion H. cbn [List.length]. lia.
  - destruct (is_digit c); [|discriminate].
    destruct (take_digits s) as [ds' r'] eqn:E. intros H. inversion H; subst.
    apply take_digits_length in E. cbn [List.length]. lia.
Qed.

Lemma frac_digits_length (s ds r : list ascii) :
  frac_digits s = Some (ds, r) -> List.length r <= List.length s.
Proof.
  destruct s as [|c s]; cbn [frac_digits]; [discriminate|].
  destruct (Ascii.eqb c "."); [|discriminate].
  destruct (take_digits s) as [[|d ds'] r'] eqn:E; [discriminate|].
  intros H. inversion H; subst.
  apply take_digits_length in E. cbn [List.length]. lia.
Qed.

Lemma exp_digits_length (s r : list ascii) (x : Z) :
  exp_digits s = Some (x, r) -> List.length r <= List.length s.
Proof.
  destruct s as [|c s]; cbn [exp_digits]; [discriminate|].
  destruct (_ || _); [|discriminate].
  destruct (Numeral.sign s) as [neg t] eqn:Es.
  destruct (take_digits t) as [[|d ds'] r'] eqn:E; [discriminate|].
  intros H. inversion H; subst.
  apply take_digits_length in E. apply sign_length in Es.
  cbn [List.length]. lia.
Qed.

Lemma parse_number_length (s r : list ascii) (v : pyval) :
  parse_number s = Some (v, r) -> List.length r < List.length s.
Proof.
  unfold parse_number.
  set (head := match s with
               | c :: s' => if Ascii.eqb c "-" then (true, s') else (false, s)
               | [] => (false, [])
               end).
  assert (Hh : List.length (snd head) <= List.length s).
  { subst head. destruct s as [|c s]; [reflexivity|].
    destruct (Ascii.eqb c "-"); cbn [snd List.length]; lia. }
  destruct head as [neg t]. cbn [snd] in Hh.
  destruct (int_digits t) as [[ip r1]|] eqn:Ei; [|discriminate].
  apply int_digits_length in Ei.
  destruct (frac_digits r1) as [[fp r2]|] eqn:Ef.
  - apply frac_digits_length in Ef.
    destruct (exp_digits r2) as [[x r3]|] eqn:Ee.
    + apply exp_digits_length in Ee. intros H. inversion H; subst. lia.
    + intros H. inversion H; subst. lia.
  - destruct (exp_digits r1) as [[x r2]|] eqn:Ee.
    + apply exp_digits_length in Ee. intros H. inversion H; subst. lia.
    + intros H. inversion H; subst. lia.
Qed.

Lemma scan_literal_length (s r : list ascii) (v : pyval) :
  scan_literal s = Some (v, r) -> List.length r < List.length s.
Proof.
  unfold scan_literal.
  destruct (after_word "null" s) eqn:E1.
  { intros H. inversion H; subst. now apply after_word_length in E1. }
  destruct (after_word "true" s) eqn:E2.
  { intros H. inversion H; subst. now apply after_word_length in E2. }
  destruct (after_word "false" s) eqn:E3.
  { intros H. inversion H; subst. now apply after_word_length in E3. }
  destruct (parse_number s) as [[v' r']|] eqn:En.
  { intros H. inversion H; subst. now apply parse_number_length in En. }
  destruct (after_word "NaN" s) eqn:E4.
  { intros H. inversion H; subst. now apply after_word_length in E4. }
  destruct (after_word "Infinity" s) eqn:E5.
  { intros H. inversion H; subst. now apply after_word_length in E5. }
  destruct (after_word "-Infinity" s) eqn:E6; [|discriminate].
  intros H. inversion H; subst. now apply after_word_length in E6.
Qed.

Lemma hex4_length (s r : list ascii) (u : Z) :
  hex4 s = Some (u, r) -> List.length r < List.length s.
Proof.
  destruct s as [|a [|b [|c [|d t]]]]; try discriminate.
  cbn [hex4]. destruct (hex_val a), (hex_val b), (hex_val c), (hex_val d);
    try discriminate.
  intros H. inversion H. cbn [List.length]. lia.
Qed.

Lemma scanstring_length (fuel : nat) :
  forall (s acc r : list ascii) (k : string),
    scanstring fuel s acc = Some (k, r) -> List.length r < List.length s.
Proof.
  induction fuel as [|fuel IH]; intros s acc r k H; [discriminate|].
  cbn [scanstring] in H. destruct s as [|c t]; [discriminate|].
  destruct (code c =? 34)%Z.
  { inversion H; subst. cbn [List.length]. lia. }
  destruct (code c =? 92)%Z.
  - destruct t as [|e t']; [discriminate|].
    destruct (Ascii.eqb e "u").
    + destruct (hex4 t') as [[u t'']|] eqn:Eh; [|discriminate].
      apply hex4_length in Eh.
      match type of H with
      | match ?p with _ => _ end = _ => destruct p as [[cp q]|] eqn:Ep
      end.
      * assert (Hq : List.length q < List.length t'').
        { destruct ((55296 <=? u)%Z && (u <=? 56319)%Z); [|discriminate].
          destruct t'' as [|b [|v w]]; try discriminate.
          destruct ((code b =? 92)%Z && Ascii.eqb v "u"); [|discriminate].
          destruct (hex4 w) as [[u2 w']|] eqn:Eh2; [|discriminate].
          apply hex4_length in Eh2.
          destruct (_ && _); [|discriminate].
          inversion Ep; subst. cbn [List.length]. lia. }
        apply IH in H. cbn [List.length]. lia.
      * apply IH in H. cbn [List.length]. lia.
    + destruct (simple_escape e); [|discriminate].
      apply IH in H. cbn [List.length]. lia.
  - destruct (code c <? 32)%Z; [discriminate|].
    apply IH in H. cbn [List.length]. lia.
Qed.

Lemma skip_ws_cons_length (s r : list ascii) (d : ascii) :
  skip_ws s = d :: r -> List.length r < List.length s.
Proof.
  intros H. pose proof (skip_ws_length s) as L. rewrite H in L.
  cbn [List.length] in L. lia.
Qed.

(** A value read by the scanner takes at least one character. *)
Lemma scan_length (fuel : nat) :
  (forall s v r, scan_once fuel s = Some (v, r) ->
                 List.length r < List.length s)
  /\ (forall s acc v r, array_items fuel s acc = Some (v, r) ->
                        List.length r < List.length s)
  /\ (forall s acc v r, object_items fuel s acc = Some (v, r) ->
                        List.length r < List.length s).
Proof.
  induction fuel as [|fuel (IHs & IHa & IHo)];
    [repeat split; intros; discriminate|].
  repeat split.
  - intros s v r H. cbn [scan_once] in H.
    destruct s as [|c t]; [discriminate|].
    destruct (code c =? 34)%Z.
    { destruct (scanstring _ t []) as [[k r']|] eqn:E; [|discriminate].
      inversion H; subst. apply scanstring_length in E.
      cbn [List.length]. lia. }
    destruct (Ascii.eqb c "{").
    { destruct (skip_ws t) as [|d r'] eqn:E; [discriminate|].
      apply skip_ws_cons_length in E.
      destruct (Ascii.eqb d "}").
      { inversion H; subst. cbn [List.length]. lia. }
      destruct (code d =? 34)%Z; [|discriminate].
      apply IHo in H. cbn [List.length]. lia. }
    destruct (Ascii.eqb c "[").
    { destruct (skip_ws t) as [|d r'] eqn:E; [discriminate|].
      apply skip_ws_cons_length in E.
      destruct (Ascii.eqb d "]").
      { inversion H; subst. cbn [List.length]. lia. }
      apply IHa in H. cbn [List.length] in *. lia. }
    now apply scan_literal_length in H.
  - intros s acc v r H. cbn [array_items] in H.
    destruct (scan_once fuel s) as [[v' r']|] eqn:E; [|discriminate].
    apply IHs in E.
    destruct (skip_ws r') as [|d r''] eqn:Ew; [discriminate|].
    apply skip_ws_cons_length in Ew.
    destruct (Ascii.eqb d "]").
    { inversion H; subst. lia. }
    destruct (Ascii.eqb d ","); [|discriminate].
    apply IHa in H. pose proof (skip_ws_length r''). lia.
  - intros s acc v r H. cbn [object_items] in H.
    destruct (scanstring _ s []) as [[k r0]|] eqn:E; [|discriminate].
    apply scanstring_length in E.
    destruct (skip_ws r0) as [|c r1] eqn:Ew; [discriminate|].
    apply skip_ws_cons_length in Ew.
    destruct (Ascii.eqb c ":"); [|discriminate].
    destruct (scan_once fuel (skip_ws r1)) as [[v' r2]|] eqn:Es; [|discriminate].
    apply IHs in Es. pose proof (skip_ws_length r1).
    destruct (skip_ws r2) as [|d r3] eqn:Ew2; [discriminate|].
    apply skip_ws_cons_length in Ew2.
    destruct (Ascii.eqb d "}").
    { inversion H; subst. lia. }
    destruct (Ascii.eqb d ","); [|discriminate].
    destruct (skip_ws r3) as [|q r4] eqn:Ew3; [discriminate|].
    apply skip_ws_cons_length in Ew3.
    destruct (code q =? 34)%Z; [|discriminate].
    apply IHo in H. lia.
Qed.

(** Beyond twice the length of the text, the fuel has no influence on
    what the scanner returns. *)
Lemma scan_fuel (f : nat) :
  (forall s f', 2 * List.length s + 1 <= f -> 2 * List.length s + 1 <= f' ->
                scan_once f s = scan_once f' s)
  /\ (forall s acc f',
         2 * List.length s + 2 <= f -> 2 * List.length s + 2 <= f' ->
         array_items f s acc = array_items f' s acc)
  /\ (forall s acc f',
         2 * List.length s + 2 <= f -> 2 * List.length s + 2 <= f' ->
         object_items f s acc = object_items f' s acc).
Proof.
  induction f as [|f (IHs & IHa & IHo)]; [repeat split; intros; lia|].
  repeat split.
  - intros s [|f'] Hf Hf'; [lia|]. cbn [scan_once].
    destruct s as [|c t]; [reflexivity|]. cbn [List.length] in Hf, Hf'.
    destruct (code c =? 34)%Z; [reflexivity|].
    destruct (Ascii.eqb c "{").
    { destruct (skip_ws t) as [|d r'] eqn:E; [reflexivity|].
      apply skip_ws_cons_length in E.
      destruct (Ascii.eqb d "}"); [reflexivity|].
      destruct (code d =? 34)%Z; [|reflexivity].
      apply IHo; lia. }
    destruct (Ascii.eqb c "["); [|reflexivity].
    destruct (skip_ws t) as [|d r'] eqn:E; [reflexivity|].
    apply skip_ws_cons_length in E.
    destruct (Ascii.eqb d "]"); [reflexivity|].
    apply IHa; cbn [List.length]; lia.
  - intros s acc [|f'] Hf Hf'; [lia|]. cbn [array_items].
    rewrite (IHs s f') by lia.
    destruct (scan_once f' s) as [[v r]|] eqn:E; [|reflexivity].
    apply (proj1 (scan_length f')) in E.
    destruct (skip_ws r) as [|d r'] eqn:Ew; [reflexivity|].
    apply skip_ws_cons_length in Ew.
    destruct (Ascii.eqb d "]"); [reflexivity|].
    destruct (Ascii.eqb d ","); [|reflexivity].
    pose proof (skip_ws_length r'). apply IHa; lia.
  - intros s acc [|f'] Hf Hf'; [lia|]. cbn [object_items].
    destruct (scanstring _ s []) as [[k r0]|] eqn:E; [|reflexivity].
    apply scanstring_length in E.
    destruct (skip_ws r0) as [|c r1] eqn:Ew; [reflexivity|].
    apply skip_ws_cons_length in Ew.
    destruct (Ascii.eqb c ":"); [|reflexivity].
    pose proof (skip_ws_length r1).
    rewrite (IHs (skip_ws r1) f') by lia.
    destruct (scan_once f' (skip_ws r1)) as [[v r2]|] eqn:Es; [|reflexivity].
    apply (proj1 (scan_length f')) in Es.
    destruct (skip_ws r2) as [|d r3] eqn:Ew2; [reflexivity|].
    apply skip_ws_cons_length in Ew2.
    destruct (Ascii.eqb d "}"); [reflexivity|].
    destruct (Ascii.eqb d ","); [|reflexivity].
    destruct (skip_ws r3) as [|q r4] eqn:Ew3; [reflexivity|].
    apply skip_ws_cons_length in Ew3.
    destruct (code q =? 34)%Z; [|reflexivity].
    apply IHo; lia.
Qed.

(** [loads] gives the scanner enough fuel: more changes nothing. *)
Lemma scan_once_fuel (s : list ascii) (f : nat) :
  2 * List.length s + 2 <= f ->
  scan_once f s = scan_once (2 * List.length s + 2) s.
Proof. intros H. apply (proj1 (scan_fuel f)); lia. Qed.

End JsonFuel.

(** ** The loading loop *)

Lemma points_set_points (self : YandexMapGenerator) (ps : list Point) :
  _points (set_points self ps) = ps.
Proof. reflexivity. Qed.

Lemma set_points_twice (self : YandexMapGenerator) (ps qs : list Point) :
  set_points (set_points self ps) qs = set_points self qs.
Proof. reflexivity. Qed.

Lemma all_in_required_dict (d : Dict.t) :
  all_in required_keys (PDict d)
  = Ok (forallb (fun k => Dict.mem k d) required_keys).
Proof.
  cbn [all_in required_keys py_in forallb].
  destruct (Dict.mem "id" d), (Dict.mem "latitude" d),
    (Dict.mem "longitude" d); reflexivity.
Qed.

(** The key test and the constructor call both succeed on a well-formed
    object, and only there. *)
Lemma well_formed_loaded (v : pyval) :
  well_formed v = true ->
  exists p, all_in required_keys v = Ok true /\ loaded_from v p.
Proof.
  destruct v as [| | | | |l|d]; try discriminate.
  unfold well_formed, loaded_from.
  destruct (Dict.lookup "id" d) as [i|] eqn:Ei; try discriminate.
  destruct (Dict.lookup "latitude" d) as [la|] eqn:Ela; try discriminate.
  destruct (Dict.lookup "longitude" d) as [lo|] eqn:Elo; try discriminate.
  intros H.
  apply andb_true_iff in H as [H Hlo].
  apply andb_true_iff in H as [Hi Hla].
  destruct (py_int i) as [|zi] eqn:Pi; try discriminate.
  destruct (py_float la) as [|fla] eqn:Pla; try discriminate.
  destruct (py_float lo) as [|flo] eqn:Plo; try discriminate.
  exists (mkPoint zi fla flo
            (match Dict.lookup "title" d with Some t => t | None => PNone end)).
  split.
  - rewrite all_in_required_dict. unfold Dict.mem.
    cbn [forallb required_keys]. now rewrite Ei, Ela, Elo.
  - unfold make_point, py_getitem, py_get.
    rewrite Ei, Ela, Elo. cbn [bind Ok].
    rewrite Pi, Pla, Plo. cbn [bind Ok].
    now destruct (Dict.lookup "title" d).
Qed.

Lemma loaded_well_formed (v : pyval) (p : Point) :
  all_in required_keys v = Ok true -> loaded_from v p -> well_formed v = true.
Proof.
  unfold loaded_from, make_point, py_getitem, well_formed.
  destruct v as [| | | | |l|d]; try discriminate.
  intros _.
  destruct (Dict.lookup "id" d) as [i|]; try discriminate.
  cbn [bind Ok]. destruct (py_int i); try discriminate.
  destruct (Dict.lookup "latitude" d) as [la|]; try discriminate.
  cbn [bind Ok]. destruct (py_float la); try discriminate.
  destruct (Dict.lookup "longitude" d) as [lo|]; try discriminate.
  cbn [bind Ok]. destruct (py_float lo); try discriminate.
  reflexivity.
Qed.

Lemma well_formed_all_loaded (data : list pyval) :
  Forall (fun v => well_formed v = true) data ->
  exists pts, Forall2 loaded_from data pts.
Proof.
  induction 1 as [|v data Hv _ [pts IH]].
  - exists []. constructor.
  - destruct (well_formed_loaded v Hv) as [p [_ Hp]].
    exists (p :: pts). now constructor.
Qed.

(** The loop over a well-formed prefix appends its points, in order,
    and goes on with the rest of the list. *)
Lemma parse_loop_prefix (pre : list pyval) (pts : list Point) :
  Forall (fun v => well_formed v = true) pre ->
  Forall2 loaded_from pre pts ->
  forall (rest : list pyval) (self : YandexMapGenerator),
    parse_loop (pre ++ rest) self
    = parse_loop rest (set_points self (_points self ++ pts)).
Proof.
  intros Hwf H. induction H as [|v p pre pts Hp _ IH]; intros rest self.
  - cbn [app]. rewrite app_nil_r. now destruct self.
  - inversion Hwf as [|? ? Hv Hpre]; subst.
    destruct (well_formed_loaded v Hv) as [p' [Hall Hp']].
    cbn [app parse_loop]. rewrite Hall.
    unfold loaded_from in Hp. rewrite Hp. cbv beta iota delta [Ok].
    rewrite (IH Hpre rest). rewrite points_set_points, set_points_twice.
    now rewrite <- app_assoc.
Qed.

Lemma parse_points_prefix (pre : list pyval) (pts : list Point) :
  Forall (fun v => well_formed v = true) pre ->
  Forall2 loaded_from pre pts ->
  forall (rest : list pyval) (self : YandexMapGenerator),
    _parse_points (PList (pre ++ rest)) self
    = parse_loop rest (set_points self pts).
Proof.
  intros Hwf H rest self. unfold _parse_points.
  now rewrite (parse_loop_prefix pre pts Hwf H).
Qed.

(** Loading a list of well-formed objects succeeds and keeps one point
    per object, in order. *)
Lemma parse_points_well_formed (data : list pyval) (self : YandexMapGenerator) :
  Forall (fun v => well_formed v = true) data ->
  exists pts,
    Forall2 loaded_from data pts
    /\ _parse_points (PList data) self = (Ok tt, set_points self pts).
Proof.
  intros Hwf. destruct (well_formed_all_loaded data Hwf) as [pts H].
  exists pts. split; [exact H|].
  rewrite <- (app_nil_r data). now rewrite (parse_points_prefix data pts Hwf H).
Qed.

(** An object that is not well-formed stops the loop with an
    exception, the collection being as it was on reaching it. *)
Lemma not_well_formed_raises (v : pyval) :
  well_formed v = false ->
  exists e : exc,
    forall (rest : list pyval) (self : YandexMapGenerator),
      parse_loop (v :: rest) self = (Raise e, self).
Proof.
  intros Hv.
  destruct (all_in required_keys v) as [e|[|]] eqn:Hall.
  - exists e. intros rest self. cbn [parse_loop]. now rewrite Hall.
  - destruct (make_point v) as [e|p] eqn:Hmk.
    + exists e. intros rest self. cbn [parse_loop]. now rewrite Hall, Hmk.
    + rewrite (loaded_well_formed v p Hall Hmk) in Hv. discriminate.
  - exists (ValueError MissingKeys). intros rest self.
    cbn [parse_loop]. now rewrite Hall.
Qed.

Lemma parse_loop_ok_well_formed (data : list pyval) :
  forall self self' : YandexMapGenerator,
    parse_loop data self = (Ok tt, self') ->
    Forall (fun v => well_formed v = true) data.
Proof.
  induction data as [|v data IH]; intros self self' H; [constructor|].
  destruct (well_formed v) eqn:Hv.
  - constructor; [exact Hv|].
    destruct (well_formed_loaded v Hv) as (p & Hall & Hp).
    cbn [parse_loop] in H. unfold loaded_from in Hp. rewrite Hall, Hp in H.
    exact (IH _ _ H).
  - destruct (not_well_formed_raises v Hv) as [e He].
    rewrite He in H. discriminate.
Qed.

(** The load succeeds exactly on the lists of well-formed objects. *)
Lemma parse_points_ok_iff (data : list pyval) (self : YandexMapGenerator) :
  (exists self', _parse_points (PList data) self = (Ok tt, self'))
  <-> Forall (fun v => well_formed v = true) data.
Proof.
  split.
  - intros [self' H]. exact (parse_loop_ok_well_formed data _ _ H).
  - intros H. destruct (parse_points_well_formed data self H) as (pts & _ & Hrun).
    now exists (set_points self pts).
Qed.

(** ** URL generation *)

Lemma generate_map_url_cons (zoom : Z) (lang : string) (p0 : Point)
      (rest : list Point) :
  generate_map_url (mkGenerator zoom lang (p0 :: rest))
  = Ok (base_url ++ "?"
        ++ Url.urlencode
             [ ("ll", center_of p0);
               ("z", Text.str_of_int zoom);
               ("lang", lang);
               ("pt", String.concat "~" (map marker_token (p0 :: rest))) ])%string.
Proof. reflexivity. Qed.

Lemma same_but_title_token (p q : Point) :
  same_but_title p q -> marker_token p = marker_token q /\ center_of p = center_of q.
Proof.
  intros (Hi & Hla & Hlo). unfold marker_token, center_of.
  now rewrite Hi, Hla, Hlo.
Qed.

Lemma same_but_title_tokens (ps qs : list Point) :
  Forall2 same_but_title ps qs -> map marker_token ps = map marker_token qs.
Proof.
  induction 1 as [|p q ps qs Hpq _ IH]; [reflexivity|].
  cbn [map]. destruct (same_but_title_token p q Hpq) as [-> _].
  now rewrite IH.
Qed.

(** C5. With an empty collection, [generate_map_url] raises the
    validation error "no points" and returns no URL. *)
Theorem no_points_no_url :
  forall self : YandexMapGenerator,
    _points self = [] ->
    generate_map_url self = Raise (ValueError NoPoints)
    /\ is_validation_error (ValueError NoPoints) = true
    /\ (forall url, generate_map_url self <> Ok url).
Proof.
  intros self H. unfold generate_map_url. rewrite H.
  repeat split. discriminate.
Qed.

Lemma lookup_set_other (k k' : string) (v : pyval) (d : Dict.t) :
  k <> k' -> Dict.lookup k (Dict.set k' v d) = Dict.lookup k d.
Proof.
  intros Hk. induction d as [|[k0 v0] d IH]; cbn [Dict.set Dict.lookup].
  - destruct (String.eqb_spec k k'); [contradiction | reflexivity].
  - destruct (String.eqb_spec k' k0) as [->|Hk0]; cbn [Dict.lookup].
    + destruct (String.eqb_spec k k0); [contradiction | reflexivity].
    + destruct (String.eqb_spec k k0); [reflexivity | exact IH].
Qed.

(** Setting or changing the title of a point object changes nothing
    but the title of the point loaded from it. *)
Lemma title_only_changes_title (d : Dict.t) (t : pyval) (p : Point) :
  loaded_from (PDict d) p ->
  exists q : Point,
    loaded_from (PDict (Dict.set "title" t d)) q /\ same_but_title p q.
Proof.
  unfold loaded_from, make_point, py_getitem, py_get.
  rewrite !lookup_set_other by discriminate.
  destruct (Dict.lookup "id" d) as [i|]; [|discriminate].
  cbn [bind Ok]. destruct (py_int i) as [|zi]; [discriminate|].
  destruct (Dict.lookup "latitude" d) as [la|]; [|discriminate].
  cbn [bind Ok]. destruct (py_float la) as [|fla]; [discriminate|].
  destruct (Dict.lookup "longitude" d) as [lo|]; [|discriminate].
  cbn [bind Ok]. destruct (py_float lo) as [|flo]; [discriminate|].
  cbn [bind Ok]. intros H.
  destruct (Dict.lookup "title" (Dict.set "title" t d)) as [t'|];
    destruct (Dict.lookup "title" d) as [t0|];
    cbv [bind Ok] in H |- *; inversion H; subst;
    eexists; (split; [reflexivity | repeat split]).
Qed.

(** C9. The title has no influence on the URL: two collections whose
    points agree on id, latitude and longitude give the same URL,
    whatever their titles. *)
Theorem title_not_in_url :
  forall (zoom : Z) (lang : string) (ps qs : list Point),
    Forall2 same_but_title ps qs ->
    generate_map_url (mkGenerator zoom lang ps)
    = generate_map_url (mkGenerator zoom lang qs).
Proof.
  intros zoom lang ps qs H.
  destruct H as [|p q ps qs Hpq Hrest]; [reflexivity|].
  rewrite !generate_map_url_cons.
  destruct (same_but_title_token p q Hpq) as [Htok Hcen].
  cbn [map]. rewrite Htok, Hcen.
  now rewrite (same_but_title_tokens ps qs Hrest).
Qed.

(** ** Conversions *)

Lemma Qtruncate_nonneg (n : Z) (d : positive) :
  0 <= n -> Qtruncate (n # d) = n / Zpos d.
Proof.
  intros Hn. unfold Qtruncate, Qle_bool, Qfloor. cbn [Qnum Qden].
  destruct (0 * Zpos d <=? n * 1) eqn:Hc; [reflexivity|].
  apply Z.leb_gt in Hc. lia.
Qed.

Lemma Qtruncate_neg (n : Z) (d : positive) :
  0 < n -> Qtruncate (- n # d) = - (n / Zpos d).
Proof.
  intros Hn. unfold Qtruncate, Qle_bool, Qceiling, Qfloor, Qopp.
  cbn [Qnum Qden].
  destruct (0 * Zpos d <=? - n * 1) eqn:Hc.
  - apply Z.leb_le in Hc. lia.
  - now rewrite Z.opp_involutive.
Qed.

(** [int()] of a finite float is its exact value truncated toward
    zero. *)
Lemma to_int_truncates (x : Float.pyfloat) :
  Float.is_finite x = true ->
  Float.to_int x = Ok (Qtruncate (Float.to_Q x)).
Proof.
  destruct x as [| s | s | neg m e]; try discriminate; intros _.
  - reflexivity.
  - unfold Float.to_int, Float.to_Q.
    destruct (0 <=? e) eqn:He.
    + assert (Hz : 0 < Zpos m * 2 ^ e).
      { apply Z.leb_le in He. apply Z.mul_pos_pos; [lia|].
        now apply Z.pow_pos_nonneg. }
      destruct neg; unfold Qopp, inject_Z; cbn [Qnum Qden].
      * now rewrite Qtruncate_neg, Z.div_1_r.
      * now rewrite Qtruncate_nonneg, Z.div_1_r by lia.
    + assert (Hp : 0 < 2 ^ (- e)).
      { apply Z.leb_gt in He. apply Z.pow_pos_nonneg; lia. }
      destruct neg; unfold Qopp; cbn [Qnum Qden].
      * rewrite Qtruncate_neg by lia. now rewrite Z2Pos.id.
      * rewrite Qtruncate_nonneg by lia. now rewrite Z2Pos.id.
Qed.

Section Numerals.
Import Text.

Lemma digit_not_space (c : ascii) :
  is_digit c = true -> Numeral.is_space c = false.
Proof.
  unfold is_digit, Numeral.is_space. intros H.
  apply andb_true_iff in H as [H1 H2]. apply Z.leb_le in H1, H2.
  apply orb_false_iff. split.
  - apply andb_false_iff. right. apply Z.leb_gt. lia.
  - apply Z.eqb_neq. lia.
Qed.

Lemma digit_not_char (c x : ascii) :
  is_digit c = true -> is_digit x = false -> Ascii.eqb c x = false.
Proof.
  intros Hc Hx. destruct (Ascii.eqb_spec c x); [congruence | reflexivity].
Qed.

Lemma digitpart_tail_digits (ds : list ascii) :
  forallb is_digit ds = true -> Numeral.digitpart_tail ds = (ds, []).
Proof.
  induction ds as [|c ds IH]; [reflexivity|].
  cbn [forallb]. intros H. apply andb_true_iff in H as [Hc Hds].
  cbn [Numeral.digitpart_tail]. rewrite Hc. now rewrite (IH Hds).
Qed.

Lemma lstrip_nonspace (c : ascii) (s : list ascii) :
  Numeral.is_space c = false -> Numeral.lstrip (c :: s) = c :: s.
Proof. intros H. cbn [Numeral.lstrip]. now rewrite H. Qed.

Lemma digits_last (ds : list ascii) :
  ds <> [] -> forallb is_digit ds = true ->
  exists c r, rev ds = c :: r /\ is_digit c = true.
Proof.
  intros Hne H. destruct (rev ds) as [|c r] eqn:E.
  - apply (f_equal (@rev ascii)) in E. rewrite rev_involutive in E.
    now elim Hne.
  - exists c, r. split; [reflexivity|].
    rewrite forallb_forall in H. apply H. apply in_rev. rewrite E. now left.
Qed.

(** Text with no white space at either end is left as it is. *)
Lemma strip_unchanged (s r r' : list ascii) (c c' : ascii) :
  s = c :: r -> rev s = c' :: r' ->
  Numeral.is_space c = false -> Numeral.is_space c' = false ->
  Numeral.strip s = s.
Proof.
  intros Hs Hrev Hc Hc'. unfold Numeral.strip.
  rewrite Hs, (lstrip_nonspace c r Hc), <- Hs, Hrev.
  rewrite (lstrip_nonspace c' r' Hc'), <- Hrev.
  apply rev_involutive.
Qed.

(** A numeral of ASCII digits is read as it is. *)
Lemma numeral_is_ascii (neg : bool) (ds : list ascii) :
  forallb is_digit ds = true ->
  Unicode.to_ascii ((if neg then ["-"%char] else []) ++ ds)
  = (if neg then ["-"%char] else []) ++ ds.
Proof.
  intros Hds. unfold Unicode.to_ascii.
  assert (H : Unicode.is_ascii_text ((if neg then ["-"%char] else []) ++ ds)
              = true).
  { unfold Unicode.is_ascii_text. rewrite forallb_app.
    apply andb_true_iff. split; [now destruct neg|].
    apply forallb_forall. intros c Hc.
    rewrite forallb_forall in Hds. specialize (Hds c Hc).
    unfold is_digit in Hds. apply andb_true_iff in Hds as [_ H].
    apply Z.leb_le in H. apply Z.ltb_lt. lia. }
  now rewrite H.
Qed.

(** [int()] reads a decimal integer numeral as the integer it
    denotes. *)
Lemma int_of_str_numeral (neg : bool) (ds : list ascii) :
  ds <> [] -> forallb is_digit ds = true ->
  Numeral.int_of_str (int_numeral neg ds)
  = Ok (if neg then - digits_val ds else digits_val ds).
Proof.
  intros Hne Hds. unfold Numeral.int_of_str, int_numeral, chars, text.
  rewrite list_ascii_of_string_of_list_ascii.
  rewrite (numeral_is_ascii neg ds Hds).
  destruct (digits_last ds Hne Hds) as (c & r & Hrev & Hc).
  destruct ds as [|d ds']; [now elim Hne|].
  assert (Hd : is_digit d = true).
  { cbn [forallb] in Hds. now apply andb_true_iff in Hds as [? _]. }
  assert (Hpart : Numeral.digitpart (d :: ds') = Some (d :: ds', [])).
  { cbn [Numeral.digitpart]. rewrite Hd.
    cbn [forallb] in Hds. apply andb_true_iff in Hds as [_ Hds].
    now rewrite (digitpart_tail_digits ds' Hds). }
  destruct neg; cbn [app].
  - rewrite (strip_unchanged ("-"%char :: d :: ds') (d :: ds')
               (r ++ ["-"%char]) "-"%char c); try reflexivity.
    + cbn [Numeral.sign]. change (Ascii.eqb "-" "-") with true.
      cbv iota. now rewrite Hpart.
    + change (rev ("-"%char :: d :: ds')) with (rev (d :: ds') ++ ["-"%char]).
      now rewrite Hrev.
    + now apply digit_not_space.
  - rewrite (strip_unchanged (d :: ds') ds' r d c); try reflexivity;
      try assumption; try now apply digit_not_space.
    cbn [Numeral.sign].
    rewrite (digit_not_char d "-" Hd), (digit_not_char d "+" Hd) by reflexivity.
    now rewrite Hpart.
Qed.

End Numerals.

Lemma id_denotes_py_int (v : pyval) (n : Z) :
  id_denotes v n -> py_int v = Ok n.
Proof.
  intros [x Hx | t k Ht]; cbn [py_int].
  - now apply to_int_truncates.
  - exact Ht.
Qed.

(** What [int()] and [float()] raise is a coercion error. *)
Lemma py_int_error (v : pyval) (e : exc) :
  py_int v = Raise e -> is_coercion_error e = true.
Proof.
  unfold Raise. destruct v as [| b | z | x | s | l | d]; cbn [py_int];
    intros H; try discriminate; try (now inversion H).
  - destruct x; cbn [Float.to_int] in H; inversion H; reflexivity.
  - unfold Numeral.int_of_str in H.
    destruct (Numeral.sign _) as [neg r].
    destruct (Numeral.digitpart r) as [[ds [|c t]]|]; inversion H; reflexivity.
Qed.

Lemma of_int_error (z : Z) (e : exc) :
  Float.of_int z = Raise e -> e = OverflowError.
Proof.
  unfold Raise, Float.of_int.
  destruct z as [|p|p]; [discriminate| |];
    destruct (Float.round_ratio p 1); intros H; inversion H; reflexivity.
Qed.

Lemma py_float_error (v : pyval) (e : exc) :
  py_float v = Raise e -> is_coercion_error e = true.
Proof.
  destruct v as [| b | z | x | s | l | d]; cbn [py_float]; intros H;
    try (unfold Raise in H; inversion H; reflexivity).
  - now rewrite (of_int_error _ e H).
  - now rewrite (of_int_error _ e H).
  - unfold Raise, Numeral.float_of_str in H.
    destruct (Numeral.sign _) as [neg r].
    destruct (_ || _); [discriminate|].
    destruct (Numeral.is_word "nan" r); [discriminate|].
    destruct (Numeral.number r) as [[[ip fp] r']|];
      [destruct (Numeral.exponent r')|]; inversion H; reflexivity.
Qed.

(** ** Failing loads *)

Lemma missing_key_raises (v : pyval) :
  missing_key v = true ->
  forall (rest : list pyval) (self : YandexMapGenerator),
    parse_loop (v :: rest) self = (Raise (ValueError MissingKeys), self).
Proof.
  destruct v as [| | | | |l|d]; try discriminate.
  unfold missing_key. intros H rest self.
  apply negb_true_iff in H.
  cbn [parse_loop]. now rewrite all_in_required_dict, H.
Qed.

Lemma coercion_fails_raises (v : pyval) :
  coercion_fails v = true ->
  exists e : exc,
    is_coercion_error e = true
    /\ forall (rest : list pyval) (self : YandexMapGenerator),
         parse_loop (v :: rest) self = (Raise e, self).
Proof.
  destruct v as [| | | | |l|d]; try discriminate.
  unfold coercion_fails.
  destruct (Dict.lookup "id" d) as [i|] eqn:Ei; try discriminate.
  destruct (Dict.lookup "latitude" d) as [la|] eqn:Ela; try discriminate.
  destruct (Dict.lookup "longitude" d) as [lo|] eqn:Elo; try discriminate.
  intros H. apply negb_true_iff in H.
  assert (Hall : all_in required_keys (PDict d) = Ok true).
  { rewrite all_in_required_dict. unfold Dict.mem.
    cbn [forallb required_keys]. now rewrite Ei, Ela, Elo. }
  assert (Hmk : exists e, is_coercion_error e = true
                          /\ make_point (PDict d) = Raise e).
  { unfold make_point, py_getitem. rewrite Ei, Ela, Elo. cbn [bind Ok].
    destruct (py_int i) as [e|zi] eqn:Pi.
    { exists e. split; [exact (py_int_error i e Pi) | reflexivity]. }
    destruct (py_float la) as [e|fla] eqn:Pla.
    { exists e. split; [exact (py_float_error la e Pla) | reflexivity]. }
    destruct (py_float lo) as [e|flo] eqn:Plo.
    { exists e. split; [exact (py_float_error lo e Plo) | reflexivity]. }
    discriminate H. }
  destruct Hmk as (e & He & Hmk). exists e. split; [exact He|].
  intros rest self. cbn [parse_loop]. now rewrite Hall, Hmk.
Qed.

(** C2, as the code has it.  When the first element that is not
    well-formed is a mapping that lacks a required key, the load raises
    the validation error of the key test.  What was loaded before the
    call is dropped; the points of the well-formed elements before the
    failing one are in the collection. *)
Theorem missing_key_fails_load :
  forall (pre : list pyval) (v : pyval) (rest : list pyval)
         (self : YandexMapGenerator),
    Forall (fun u => well_formed u = true) pre ->
    missing_key v = true ->
    exists pts : list Point,
      _parse_points (PList (pre ++ v :: rest)) self
      = (Raise (ValueError MissingKeys), set_points self pts)
      /\ is_validation_error (ValueError MissingKeys) = true
      /\ Forall2 loaded_from pre pts.
Proof.
  intros pre v rest self Hwf Hv.
  destruct (well_formed_all_loaded pre Hwf) as [pts Hpts].
  exists pts. split; [|split; [reflexivity | exact Hpts]].
  rewrite (parse_points_prefix pre pts Hwf Hpts).
  apply (missing_key_raises v Hv).
Qed.

(** C8, as the code has it.  When the first element that is not
    well-formed has the three required keys and a value that its
    conversion rejects, the load raises the error of that conversion
    and returns nothing; the points of the well-formed elements before
    it are in the collection. *)
Theorem coercion_failure_fails_load :
  forall (pre : list pyval) (v : pyval) (rest : list pyval)
         (self : YandexMapGenerator),
    Forall (fun u => well_formed u = true) pre ->
    coercion_fails v = true ->
    exists (e : exc) (pts : list Point),
      _parse_points (PList (pre ++ v :: rest)) self
      = (Raise e, set_points self pts)
      /\ is_coercion_error e = true
      /\ Forall2 loaded_from pre pts.
Proof.
  intros pre v rest self Hwf Hv.
  destruct (well_formed_all_loaded pre Hwf) as [pts Hpts].
  destruct (coercion_fails_raises v Hv) as (e & He & Hrun).
  exists e, pts. split; [|split; [exact He | exact Hpts]].
  rewrite (parse_points_prefix pre pts Hwf Hpts). apply Hrun.
Qed.

(** C10, as the code has it.  Among well-formed elements, take an
    element whose latitude and longitude convert.  When its id is a
    finite float or a text that [int()] reads, the load succeeds and
    the point stored for it has the id [int()] gives: the float
    truncated toward zero, the integer read from the text.  When its id
    is a float that is not finite, the load fails at this element: with
    [ValueError] for NaN and [OverflowError] for an infinity. *)
Theorem id_is_coerced :
  forall (pre post : list pyval) (d : Dict.t) (idv la lo : pyval)
         (self : YandexMapGenerator),
    Forall (fun u => well_formed u = true) pre ->
    Forall (fun u => well_formed u = true) post ->
    Dict.lookup "id" d = Some idv ->
    Dict.lookup "latitude" d = Some la -> is_ok (py_float la) = true ->
    Dict.lookup "longitude" d = Some lo -> is_ok (py_float lo) = true ->
    (forall n : Z,
        id_denotes idv n ->
        exists (before : list Point) (p : Point) (after : list Point),
          _parse_points (PList (pre ++ PDict d :: post)) self
          = (Ok tt, set_points self (before ++ p :: after))
          /\ Forall2 loaded_from pre before
          /\ loaded_from (PDict d) p
          /\ Forall2 loaded_from post after
          /\ id p = n)
    /\ (forall x : Float.pyfloat,
           idv = PFloat x ->
           Float.is_finite x = false ->
           exists before : list Point,
             _parse_points (PList (pre ++ PDict d :: post)) self
             = (Raise match x with
                      | Float.Nan => ValueError NanToInteger
                      | _ => OverflowError
                      end,
                set_points self before)
             /\ Forall2 loaded_from pre before).
Proof.
  intros pre post d idv la lo self Hpre Hpost Ei Ela Hla Elo Hlo.
  destruct (well_formed_all_loaded pre Hpre) as [before Hbefore].
  split.
  - intros n Hid.
    pose proof (id_denotes_py_int idv n Hid) as Pi.
    assert (Hwf : well_formed (PDict d) = true).
    { unfold well_formed. now rewrite Ei, Ela, Elo, Pi, Hla, Hlo. }
    destruct (well_formed_loaded _ Hwf) as (p & _ & Hp).
    assert (Hidp : id p = n).
    { unfold loaded_from, make_point, py_getitem in Hp.
      rewrite Ei, Ela, Elo in Hp. cbn [bind Ok] in Hp. rewrite Pi in Hp.
      cbn [bind Ok] in Hp.
      destruct (py_float la); [discriminate|].
      destruct (py_float lo); [discriminate|].
      cbn [bind Ok] in Hp.
      destruct (py_get (PDict d) "title"); [discriminate|].
      cbv in Hp. inversion Hp. reflexivity. }
    destruct (well_formed_all_loaded post Hpost) as [after Hafter].
    exists before, p, after.
    split; [|repeat split; assumption].
    assert (Hall : Forall (fun u => well_formed u = true)
                          (pre ++ PDict d :: post)).
    { apply Forall_app. split; [exact Hpre | now constructor]. }
    assert (Hload : Forall2 loaded_from (pre ++ PDict d :: post)
                            (before ++ p :: after)).
    { apply Forall2_app; [exact Hbefore | now constructor]. }
    rewrite <- (app_nil_r (pre ++ PDict d :: post)).
    now rewrite (parse_points_prefix _ _ Hall Hload).
  - intros x -> Hx. exists before. split; [|exact Hbefore].
    rewrite (parse_points_prefix pre before Hpre Hbefore).
    cbn [parse_loop]. rewrite all_in_required_dict. unfold Dict.mem.
    cbn [forallb required_keys]. rewrite Ei, Ela, Elo.
    cbv beta iota delta [andb Ok]. unfold make_point, py_getitem.
    rewrite Ei. cbn [bind Ok py_int].
    destruct x as [|neg|neg|neg m e]; try discriminate Hx; reflexivity.
Qed.

(** C2, counterexample.  In [null_id_then_empty] the third element
    has no key at all, yet the load stops at the second element with a
    [TypeError], which is no validation error, and the point of the
    first element stays in the collection. *)
Lemma missing_key_counterexample :
  Exists (fun v => missing_key v = true) null_id_then_empty
  /\ exists p : Point,
       _parse_points (PList null_id_then_empty)
                     (__init__ default_zoom default_lang)
       = (Raise TypeError, mkGenerator default_zoom default_lang [p])
       /\ id p = 1
       /\ is_validation_error TypeError = false.
Proof.
  split.
  - right. right. left. reflexivity.
  - eexists. split; [vm_compute; reflexivity | split; reflexivity].
Qed.

(** C8, counterexample.  In [empty_then_bad_id] the third element has
    the three keys and an id that [int()] rejects, yet the load stops at
    the second element with the validation error of the key test, and
    the point of the first element stays in the collection. *)
Lemma coercion_failure_counterexample :
  Exists (fun v => coercion_fails v = true) empty_then_bad_id
  /\ exists p : Point,
       _parse_points (PList empty_then_bad_id)
                     (__init__ default_zoom default_lang)
       = (Raise (ValueError MissingKeys),
          mkGenerator default_zoom default_lang [p])
       /\ id p = 1
       /\ is_coercion_error (ValueError MissingKeys) = false.
Proof.
  split.
  - right. right. left. reflexivity.
  - eexists. split; [vm_compute; reflexivity | split; reflexivity].
Qed.

(** C10, counterexample.  The id of [huge_id_text] is a JSON number
    that reads as the float infinity; latitude and longitude convert;
    the load raises [OverflowError] and stores nothing. *)
Lemma float_id_counterexample :
  exists la lo : pyval,
    Json.loads huge_id_text
    = Ok (PList [PDict [("id", PFloat (Float.Inf false));
                        ("latitude", la); ("longitude", lo)]])
    /\ is_ok (py_float la) = true
    /\ is_ok (py_float lo) = true
    /\ load_points no_files huge_id_text (__init__ default_zoom default_lang)
       = (Raise OverflowError, __init__ default_zoom default_lang).
Proof.
  do 2 eexists. split; [vm_compute; reflexivity|].
  repeat split; vm_compute; reflexivity.
Qed.

(** The float id 1.9 is stored as 1. *)
Example float_id_truncated :
  exists p : Point,
    load_points no_files float_id_text (__init__ default_zoom default_lang)
    = (Ok tt, mkGenerator default_zoom default_lang [p])
    /\ id p = 1.
Proof. eexists. split; [vm_compute; reflexivity | reflexivity]. Qed.

(** An id given as the text of a fraction is rejected: [int()] reads
    integer numerals only. *)
Example fraction_text_id_rejected :
  _parse_points (PList [point_object (PStr "1.9") (PInt 10) (PInt 20)])
                (__init__ default_zoom default_lang)
  = (Raise (ValueError InvalidLiteral), __init__ default_zoom default_lang).
Proof. vm_compute. reflexivity. Qed.

(** ** Input resolution *)

(** The apostrophes of [json_text] stand for double quotes, and the
    one-point text reads as a list of one mapping with the int 1 and the
    floats 10 and 20. *)
Example json_text_quotes :
  Text.chars (json_text "'a'") = [Text.char 34; "a"%char; Text.char 34].
Proof. reflexivity. Qed.

Example one_point_text_value :
  Json.loads one_point_text
  = Ok (PList [point_object
                 (PInt 1)
                 (PFloat (Float.Finite false 5629499534213120 (-49)))
                 (PFloat (Float.Finite false 5629499534213120 (-48)))])
  /\ Float.to_Q (Float.Finite false 5629499534213120 (-49)) == 10 # 1
  /\ Float.to_Q (Float.Finite false 5629499534213120 (-48)) == 20 # 1.
Proof. repeat split; vm_compute; reflexivity. Qed.

(** C3.  With [--stdin], the text read from standard input goes
    through [load_points] and its file test.  When that text is the
    name of an existing file, the file is read and the map of its points
    is opened: for the text [points.json], which is not JSON and fails
    to parse when no such file exists; and for a text that is itself
    the JSON of one point, when a file of that name holds two other
    points. *)
Theorem stdin_text_naming_a_file :
  main (one_file "points.json" one_point_text) "points.json" stdin_only
  = Ok "https://maps.yandex.ru/?ll=20.0%2C10.0&z=5&lang=ru_RU&pt=20.0%2C10.0%2Cpmwtm1"
  /\ Json.loads "points.json" = Raise JSONDecodeError
  /\ main no_files "points.json" stdin_only = Raise JSONDecodeError
  /\ main (one_file one_point_text two_points_text) one_point_text stdin_only
     = Ok "https://maps.yandex.ru/?ll=37.62%2C55.75&z=5&lang=ru_RU&pt=37.62%2C55.75%2Cpmwtm1~30.33%2C59.93%2Cpmwtm2"
  /\ main no_files one_point_text stdin_only
     = Ok "https://maps.yandex.ru/?ll=20.0%2C10.0&z=5&lang=ru_RU&pt=20.0%2C10.0%2Cpmwtm1".
Proof. repeat split; vm_compute; reflexivity. Qed.

(** C7.  [load_points] parses the contents of the file its input names
    and, when the input names no file, the input itself; on the text
    [[{"id":1,"latitude":10.0,"longitude":20.0}]], reached either way,
    it loads exactly one point, with id 1. *)
Theorem file_or_text :
  forall (fs : filesystem) (input contents : string)
         (self : YandexMapGenerator),
    resolves fs input contents ->
    load_points fs input self = load_text contents self
    /\ (contents = one_point_text ->
        exists p : Point,
          load_points fs input self = (Ok tt, set_points self [p])
          /\ id p = 1).
Proof.
  intros fs input contents self H.
  assert (Hrun : load_points fs input self = load_text contents self).
  { destruct H as [contents H | H]; unfold load_points, load_text;
      rewrite H; reflexivity. }
  split; [exact Hrun|].
  intros ->. rewrite Hrun. unfold load_text.
  eexists. split; [vm_compute; reflexivity | reflexivity].
Qed.

(** ** The worked example *)

(** C6.  For the two-point input, given as a JSON text that names no
    file, with the default zoom 5 and language ru_RU: the load succeeds
    with two points, the parameters are [ll = 37.62,55.75], [z = 5],
    [lang = ru_RU] and [pt = 37.62,55.75,pmwtm1~30.33,59.93,pmwtm2]
    before percent-encoding, and the URL is their encoding after the
    base address; [main] opens that URL. *)
Theorem two_points_example :
  forall fs : filesystem,
    fs two_points_text = None ->
    exists (self' : YandexMapGenerator) (p0 p1 : Point),
      load_points fs two_points_text (__init__ default_zoom default_lang)
      = (Ok tt, self')
      /\ _points self' = [p0; p1]
      /\ map_params self' p0
         = [ ("ll", "37.62,55.75"); ("z", "5"); ("lang", "ru_RU");
             ("pt", "37.62,55.75,pmwtm1~30.33,59.93,pmwtm2") ]
      /\ generate_map_url self'
         = Ok "https://maps.yandex.ru/?ll=37.62%2C55.75&z=5&lang=ru_RU&pt=37.62%2C55.75%2Cpmwtm1~30.33%2C59.93%2Cpmwtm2"
      /\ main fs "" {| json_input := Some two_points_text; stdin := false |}
         = generate_map_url self'.
Proof.
  intros fs H.
  assert (Hload : load_points fs two_points_text
                    (__init__ default_zoom default_lang)
                  = load_text two_points_text
                      (__init__ default_zoom default_lang)).
  { unfold load_points, load_text. now rewrite H. }
  assert (Hmain : main fs "" {| json_input := Some two_points_text;
                                stdin := false |}
                  = match load_text two_points_text
                            (__init__ default_zoom default_lang) with
                    | (inl e, _) => Raise e
                    | (inr _, g) => display_map g
                    end).
  { unfold main. cbv zeta. cbn [stdin json_input].
    change (truthy (Some two_points_text)) with (Some two_points_text).
    cbv iota. now rewrite Hload. }
  rewrite Hload, Hmain.
  do 3 eexists. split; [vm_compute; reflexivity|].
  repeat split; vm_compute; reflexivity.
Qed.

(** * Instances *)

(** The theorems above at concrete inputs, with their hypotheses
    checked there. *)

(** C5 at a generator that has loaded nothing. *)
Lemma no_points_no_url_witness :
  _points (__init__ default_zoom default_lang) = []
  /\ generate_map_url (__init__ default_zoom default_lang)
     = Raise (ValueError NoPoints).
Proof.
  split; [reflexivity|].
  exact (proj1 (no_points_no_url (__init__ default_zoom default_lang) eq_refl)).
Defined.

(** C9 at one point with and without a title. *)
Lemma title_not_in_url_witness :
  Forall2 same_but_title
    [mkPoint 1 (Float.Zero false) (Float.Zero false) (PStr "A")]
    [mkPoint 1 (Float.Zero false) (Float.Zero false) PNone]
  /\ generate_map_url
       (mkGenerator 5 "ru_RU"
          [mkPoint 1 (Float.Zero false) (Float.Zero false) (PStr "A")])
     = generate_map_url
         (mkGenerator 5 "ru_RU"
            [mkPoint 1 (Float.Zero false) (Float.Zero false) PNone]).
Proof.
  assert (H : Forall2 same_but_title
                [mkPoint 1 (Float.Zero false) (Float.Zero false) (PStr "A")]
                [mkPoint 1 (Float.Zero false) (Float.Zero false) PNone]).
  { constructor; [|constructor]. repeat split; reflexivity. }
  split; [exact H|].
  exact (title_not_in_url 5 "ru_RU" _ _ H).
Defined.

(** C2 at a well-formed object followed by one without latitude and longitude. *)
Lemma missing_key_fails_load_witness :
  Forall (fun u => well_formed u = true)
         [point_object (PInt 1) (PInt 10) (PInt 20)]
  /\ missing_key (PDict [("id", PInt 2)]) = true
  /\ exists pts : list Point,
       _parse_points
         (PList ([point_object (PInt 1) (PInt 10) (PInt 20)]
                 ++ PDict [("id", PInt 2)] :: []))
         (__init__ default_zoom default_lang)
       = (Raise (ValueError MissingKeys),
          set_points (__init__ default_zoom default_lang) pts)
       /\ is_validation_error (ValueError MissingKeys) = true
       /\ Forall2 loaded_from [point_object (PInt 1) (PInt 10) (PInt 20)] pts.
Proof.
  split; [repeat constructor|].
  split; [reflexivity|].
  apply missing_key_fails_load.
  - repeat constructor.
  - reflexivity.
Defined.

(** C8 at a well-formed object followed by one whose id is the text x. *)
Lemma coercion_failure_fails_load_witness :
  Forall (fun u => well_formed u = true)
         [point_object (PInt 1) (PInt 10) (PInt 20)]
  /\ coercion_fails (point_object (PStr "x") (PInt 10) (PInt 20)) = true
  /\ exists (e : exc) (pts : list Point),
       _parse_points
         (PList ([point_object (PInt 1) (PInt 10) (PInt 20)]
                 ++ point_object (PStr "x") (PInt 10) (PInt 20) :: []))
         (__init__ default_zoom default_lang)
       = (Raise e, set_points (__init__ default_zoom default_lang) pts)
       /\ is_coercion_error e = true
       /\ Forall2 loaded_from [point_object (PInt 1) (PInt 10) (PInt 20)] pts.
Proof.
  split; [repeat constructor|].
  split; [reflexivity|].
  apply coercion_failure_fails_load.
  - repeat constructor.
  - reflexivity.
Defined.

(** C10 at an object whose id is the float 1.5 and at one whose id
    is the float infinity. *)
Lemma id_is_coerced_witness :
  id_denotes (PFloat (Float.Finite false 6755399441055744 (-52))) 1
  /\ (exists (before : list Point) (p : Point) (after : list Point),
         _parse_points
           (PList ([] ++ point_object
                           (PFloat (Float.Finite false 6755399441055744 (-52)))
                           (PInt 10) (PInt 20) :: []))
           (__init__ default_zoom default_lang)
         = (Ok tt, set_points (__init__ default_zoom default_lang)
                              (before ++ p :: after))
         /\ Forall2 loaded_from [] before
         /\ loaded_from
              (point_object
                 (PFloat (Float.Finite false 6755399441055744 (-52)))
                 (PInt 10) (PInt 20)) p
         /\ Forall2 loaded_from [] after
         /\ id p = 1)
  /\ Float.is_finite (Float.Inf false) = false
  /\ (exists before : list Point,
         _parse_points
           (PList ([] ++ point_object (PFloat (Float.Inf false))
                           (PInt 10) (PInt 20) :: []))
           (__init__ default_zoom default_lang)
         = (Raise OverflowError,
            set_points (__init__ default_zoom default_lang) before)
         /\ Forall2 loaded_from [] before).
Proof.
  assert (H : id_denotes (PFloat (Float.Finite false 6755399441055744 (-52))) 1).
  { exact (id_of_float (Float.Finite false 6755399441055744 (-52)) eq_refl). }
  split; [exact H|]. split.
  - exact (proj1 (id_is_coerced [] []
                    [("id", PFloat (Float.Finite false 6755399441055744 (-52)));
                     ("latitude", PInt 10); ("longitude", PInt 20)]
                    (PFloat (Float.Finite false 6755399441055744 (-52)))
                    (PInt 10) (PInt 20) (__init__ default_zoom default_lang)
                    (Forall_nil _) (Forall_nil _)
                    eq_refl eq_refl eq_refl eq_refl eq_refl) 1 H).
  - split; [reflexivity|].
    exact (proj2 (id_is_coerced [] []
                    [("id", PFloat (Float.Inf false));
                     ("latitude", PInt 10); ("longitude", PInt 20)]
                    (PFloat (Float.Inf false))
                    (PInt 10) (PInt 20) (__init__ default_zoom default_lang)
                    (Forall_nil _) (Forall_nil _)
                    eq_refl eq_refl eq_refl eq_refl eq_refl)
                 (Float.Inf false) eq_refl eq_refl).
Defined.

(** C7 at a file points.json holding the one-point text. *)
Lemma file_or_text_witness :
  resolves (one_file "points.json" one_point_text) "points.json" one_point_text
  /\ load_points (one_file "points.json" one_point_text) "points.json"
                 (__init__ default_zoom default_lang)
     = load_text one_point_text (__init__ default_zoom default_lang)
  /\ exists p : Point,
       load_points (one_file "points.json" one_point_text) "points.json"
                   (__init__ default_zoom default_lang)
       = (Ok tt, set_points (__init__ default_zoom default_lang) [p])
       /\ id p = 1.
Proof.
  assert (H : resolves (one_file "points.json" one_point_text)
                       "points.json" one_point_text).
  { apply from_file. reflexivity. }
  split; [exact H|].
  destruct (file_or_text (one_file "points.json" one_point_text)
              "points.json" one_point_text
              (__init__ default_zoom default_lang) H) as [Hrun Hone].
  split; [exact Hrun | exact (Hone eq_refl)].
Defined.

(** C6 at a file system with no file. *)
Lemma two_points_example_witness :
  no_files two_points_text = None
  /\ exists (self' : YandexMapGenerator),
       load_points no_files two_points_text (__init__ default_zoom default_lang)
       = (Ok tt, self')
       /\ generate_map_url self'
          = Ok "https://maps.yandex.ru/?ll=37.62%2C55.75&z=5&lang=ru_RU&pt=37.62%2C55.75%2Cpmwtm1~30.33%2C59.93%2Cpmwtm2".
Proof.
  split; [reflexivity|].
  destruct (two_points_example no_files eq_refl)
    as (self' & p0 & p1 & Hload & _ & _ & Hurl & _).
  exists self'. split; [exact Hload | exact Hurl].
Defined.

(** * Further properties *)

(** ** What a load keeps and what it replaces *)

Lemma parse_loop_settings (data : list pyval) :
  forall self : YandexMapGenerator,
    _zoom (snd (parse_loop data self)) = _zoom self
    /\ _lang (snd (parse_loop data self)) = _lang self.
Proof.
  induction data as [|v data IH]; intros self; [now split|].
  cbn [parse_loop].
  destruct (all_in required_keys v) as [e|[|]]; try now split.
  destruct (make_point v) as [e|p]; [now split|].
  destruct (IH (set_points self (_points self ++ [p]))) as [Hz Hl].
  now rewrite Hz, Hl.
Qed.

Lemma parse_points_settings (data : pyval) (self : YandexMapGenerator) :
  _zoom (snd (_parse_points data self)) = _zoom self
  /\ _lang (snd (_parse_points data self)) = _lang self.
Proof.
  destruct data as [| | | | |l|d]; try now split.
  unfold _parse_points.
  destruct (parse_loop_settings l (set_points self [])) as [Hz Hl].
  now rewrite Hz, Hl.
Qed.

(** X1. Loading never touches the zoom and the language of the
    generator, whether it succeeds or fails. *)
Theorem load_keeps_settings :
  forall (fs : filesystem) (input : string) (self : YandexMapGenerator),
    _zoom (snd (load_points fs input self)) = _zoom self
    /\ _lang (snd (load_points fs input self)) = _lang self.
Proof.
  intros fs input self. unfold load_points.
  destruct (match fs input with
            | Some file => contents <- file ;; Json.loads contents
            | None => Json.loads input
            end) as [e|d]; [now split|].
  apply parse_points_settings.
Qed.

(** X2. A load of a list replaces what an earlier load left: after any
    first load, successful or not, loading a list gives the outcome and
    the object that loading it alone gives. *)
Theorem later_load_overrides :
  forall (first : pyval) (second : list pyval) (self : YandexMapGenerator),
    _parse_points (PList second) (snd (_parse_points first self))
    = _parse_points (PList second) self.
Proof.
  intros first second self. unfold _parse_points at 1 3.
  destruct (parse_points_settings first self) as [Hz Hl].
  unfold set_points. now rewrite Hz, Hl.
Qed.

(** X3. The load stops at the first element that is not a well-formed
    point object, whatever that element is: it raises, the collection
    holds the points of the elements before it, and the elements after
    it are not looked at. *)
Theorem load_stops_at_first_bad_element :
  forall (pre : list pyval) (v : pyval) (self : YandexMapGenerator),
    Forall (fun u => well_formed u = true) pre ->
    well_formed v = false ->
    exists (e : exc) (pts : list Point),
      Forall2 loaded_from pre pts
      /\ forall rest : list pyval,
           _parse_points (PList (pre ++ v :: rest)) self
           = (Raise e, set_points self pts).
Proof.
  intros pre v self Hpre Hv.
  destruct (well_formed_all_loaded pre Hpre) as [pts Hpts].
  destruct (not_well_formed_raises v Hv) as [e He].
  exists e, pts. split; [exact Hpts|]. intros rest.
  rewrite (parse_points_prefix pre pts Hpre Hpts). apply He.
Qed.

(** ** The exceptions of a load *)

Lemma py_in_error (k : string) (v : pyval) (e : exc) :
  py_in k v = Raise e -> e = TypeError.
Proof.
  destruct v; cbn [py_in]; unfold Raise, Ok; intros H;
    inversion H; reflexivity.
Qed.

Lemma all_in_error (ks : list string) (v : pyval) (e : exc) :
  all_in ks v = Raise e -> e = TypeError.
Proof.
  induction ks as [|k ks IH]; cbn [all_in]; [discriminate|].
  destruct (py_in k v) as [e'|[|]] eqn:E.
  - unfold Raise. intros H. inversion H; subst. now apply (py_in_error k v).
  - exact IH.
  - discriminate.
Qed.

Lemma coercion_error_cases (e : exc) :
  is_coercion_error e = true ->
  In e [TypeError; OverflowError; ValueError InvalidLiteral;
        ValueError NanToInteger].
Proof.
  destruct e as [[]| | | | | | |]; try discriminate; cbn; tauto.
Qed.

(** Once the key test has passed, the constructor call can only fail
    in a conversion or, for an object that is no mapping, in the
    indexing. *)
Lemma make_point_error (v : pyval) (e : exc) :
  all_in required_keys v = Ok true ->
  make_point v = Raise e ->
  is_coercion_error e = true.
Proof.
  intros Hall. unfold make_point, py_getitem, Raise.
  destruct v as [| | | | s|l|d]; try discriminate Hall;
    try (cbn [bind]; intros H; inversion H; reflexivity).
  rewrite all_in_required_dict in Hall. unfold Ok in Hall.
  injection Hall as Hk. cbn [forallb required_keys] in Hk.
  unfold Dict.mem in Hk.
  destruct (Dict.lookup "id" d) as [i|]; [|discriminate].
  destruct (Dict.lookup "latitude" d) as [la|]; [|discriminate].
  destruct (Dict.lookup "longitude" d) as [lo|]; [|discriminate].
  cbn [bind Ok].
  destruct (py_int i) as [e1|zi] eqn:Pi.
  { intros H. inversion H; subst. exact (py_int_error i e Pi). }
  destruct (py_float la) as [e1|fla] eqn:Pla.
  { intros H. inversion H; subst. exact (py_float_error la e Pla). }
  destruct (py_float lo) as [e1|flo] eqn:Plo.
  { intros H. inversion H; subst. exact (py_float_error lo e Plo). }
  unfold py_get. destruct (Dict.lookup "title" d); discriminate.
Qed.

Lemma parse_loop_error (data : list pyval) :
  forall (self self' : YandexMapGenerator) (e : exc),
    parse_loop data self = (Raise e, self') ->
    e = ValueError MissingKeys \/ is_coercion_error e = true.
Proof.
  induction data as [|v data IH]; intros self self' e; cbn [parse_loop].
  - discriminate.
  - destruct (all_in required_keys v) as [e'|[|]] eqn:Hall.
    + unfold Raise. intros H. inversion H; subst.
      right. now rewrite (all_in_error _ _ _ Hall).
    + destruct (make_point v) as [e'|p] eqn:Hmk.
      * unfold Raise. intros H. inversion H; subst.
        right. exact (make_point_error v e Hall Hmk).
      * apply IH.
    + unfold Raise. intros H. inversion H. now left.
Qed.

(** X4. The exceptions [_parse_points] can raise: the two validation
    errors of its own, [TypeError], [OverflowError], and the
    [ValueError]s of [int()] and [float()].  The key test guards the
    indexing, so [KeyError] is never raised, and neither are
    [AttributeError], [OSError], [JSONDecodeError] or [SystemExit]. *)
Theorem parse_points_exceptions :
  forall (data : pyval) (self self' : YandexMapGenerator) (e : exc),
    _parse_points data self = (Raise e, self') ->
    In e [ValueError NotAList; ValueError MissingKeys; TypeError;
          OverflowError; ValueError InvalidLiteral; ValueError NanToInteger].
Proof.
  intros data self self' e H.
  assert (Hcases : e = ValueError NotAList \/ e = ValueError MissingKeys
                   \/ is_coercion_error e = true).
  { destruct data as [| | | | |l|d];
      try (unfold _parse_points, Raise in H; inversion H; now left).
    right. exact (parse_loop_error l _ _ e H). }
  destruct Hcases as [->|[->|Hc]]; [cbn; tauto | cbn; tauto |].
  apply coercion_error_cases in Hc. cbn in Hc |- *. tauto.
Qed.

(** ** Inputs that are not an array of mappings *)

Lemma loads_error (s : string) (e : exc) :
  Json.loads s = Raise e -> e = JSONDecodeError.
Proof.
  unfold Json.loads, Raise, Ok.
  destruct (Json.scan_once _ _) as [[v r]|]; [destruct (Json.skip_ws r)|];
    intros H; inversion H; reflexivity.
Qed.

Lemma load_points_resolves (fs : filesystem) (input contents : string)
      (self : YandexMapGenerator) :
  resolves fs input contents ->
  load_points fs input self = load_text contents self.
Proof.
  intros [c H | H]; unfold load_points, load_text; rewrite H; reflexivity.
Qed.

(** X5. When the text the input stands for is not JSON, or is JSON
    but not an array, [load_points] raises a JSON error or the "not a
    list" validation error and leaves the object exactly as it was:
    the points of an earlier load are still there. *)
Theorem load_rejects_non_array :
  forall (fs : filesystem) (input contents : string)
         (self : YandexMapGenerator),
    resolves fs input contents ->
    (forall l, Json.loads contents <> Ok (PList l)) ->
    exists e : exc,
      load_points fs input self = (Raise e, self)
      /\ (e = JSONDecodeError \/ e = ValueError NotAList).
Proof.
  intros fs input contents self Hres Hnot.
  rewrite (load_points_resolves fs input contents self Hres).
  unfold load_text.
  destruct (Json.loads contents) as [e|d] eqn:E.
  - exists e. split; [reflexivity|]. left. exact (loads_error contents e E).
  - destruct d as [| | | | |l|d];
      try (exists (ValueError NotAList); split; [reflexivity | now right]).
    now elim (Hnot l).
Qed.

(** X6. An element that is not a mapping never loads.  [None], a
    bool, an int or a float fails the key test itself with a
    [TypeError].  A string is searched for the key names as substrings
    and a list for them as elements: when one is not found the load
    raises the validation error, and when all three are found the
    indexing by a key raises a [TypeError]. *)
Theorem non_mapping_element_fails :
  forall (pre : list pyval) (v : pyval) (rest : list pyval)
         (self : YandexMapGenerator),
    Forall (fun u => well_formed u = true) pre ->
    (forall d, v <> PDict d) ->
    exists pts : list Point,
      Forall2 loaded_from pre pts
      /\ _parse_points (PList (pre ++ v :: rest)) self
         = (Raise
              match v with
              | PStr s =>
                  if forallb (fun k => Text.is_substring (Text.chars k)
                                                         (Text.chars s))
                             required_keys
                  then TypeError else ValueError MissingKeys
              | PList l =>
                  if forallb (fun k =>
                                existsb (fun x => match x with
                                                  | PStr s => String.eqb k s
                                                  | _ => false
                                                  end) l)
                             required_keys
                  then TypeError else ValueError MissingKeys
              | _ => TypeError
              end,
            set_points self pts).
Proof.
  intros pre v rest self Hpre Hv.
  destruct (well_formed_all_loaded pre Hpre) as [pts Hpts].
  exists pts. split; [exact Hpts|].
  rewrite (parse_points_prefix pre pts Hpre Hpts).
  destruct v as [| | | | s|l|d]; try reflexivity.
  - cbn [parse_loop all_in required_keys py_in forallb].
    destruct (Text.is_substring (Text.chars "id") (Text.chars s));
      [|reflexivity].
    destruct (Text.is_substring (Text.chars "latitude") (Text.chars s));
      [|reflexivity].
    destruct (Text.is_substring (Text.chars "longitude") (Text.chars s));
      reflexivity.
  - cbn [parse_loop all_in required_keys py_in forallb].
    destruct (existsb _ l); [|reflexivity].
    destruct (existsb _ l); [|reflexivity].
    destruct (existsb _ l); reflexivity.
  - now elim (Hv d).
Qed.

(** ** Keys the loader does not read *)

Lemma parse_loop_congruence (pre : list pyval) (v w : pyval)
      (post : list pyval) :
  all_in required_keys v = all_in required_keys w ->
  make_point v = make_point w ->
  forall self : YandexMapGenerator,
    parse_loop (pre ++ v :: post) self = parse_loop (pre ++ w :: post) self.
Proof.
  intros Hall Hmk. induction pre as [|u pre IH]; intros self.
  - cbn [app parse_loop]. now rewrite Hall, Hmk.
  - cbn [app parse_loop].
    destruct (all_in required_keys u) as [e|[|]]; try reflexivity.
    destruct (make_point u) as [e|p]; [reflexivity | apply IH].
Qed.

Lemma read_key_cases (k : string) :
  read_key k = false ->
  k <> "id" /\ k <> "latitude" /\ k <> "longitude" /\ k <> "title".
Proof.
  unfold read_key. cbn [existsb]. intros H.
  repeat (apply orb_false_iff in H; destruct H as [?H H]).
  repeat split; intros ->; discriminate.
Qed.

(** X7. A key other than id, latitude, longitude and title is never
    read: adding it to an element, or changing its value, changes
    neither the outcome of the load nor the object it leaves. *)
Theorem other_keys_ignored :
  forall (pre post : list pyval) (d : Dict.t) (k : string) (x : pyval)
         (self : YandexMapGenerator),
    read_key k = false ->
    _parse_points (PList (pre ++ PDict (Dict.set k x d) :: post)) self
    = _parse_points (PList (pre ++ PDict d :: post)) self.
Proof.
  intros pre post d k x self Hk.
  destruct (read_key_cases k Hk) as (Hid & Hla & Hlo & Hti).
  unfold _parse_points. apply parse_loop_congruence.
  - rewrite !all_in_required_dict. unfold Dict.mem.
    cbn [forallb required_keys].
    now rewrite !lookup_set_other by (intros E; symmetry in E; contradiction).
  - unfold make_point, py_getitem, py_get.
    now rewrite !lookup_set_other by (intros E; symmetry in E; contradiction).
Qed.

(** ** The title from the input to the URL *)

Lemma same_but_title_refl (p : Point) : same_but_title p p.
Proof. now repeat split. Qed.

Lemma same_but_title_sym (p q : Point) :
  same_but_title p q -> same_but_title q p.
Proof. intros (H1 & H2 & H3). now repeat split. Qed.

Lemma make_point_set_title (d : Dict.t) (t : pyval) :
  same_outcome_but_title (make_point (PDict d))
                         (make_point (PDict (Dict.set "title" t d))).
Proof.
  unfold same_outcome_but_title, make_point, py_getitem, py_get.
  rewrite !lookup_set_other by discriminate.
  destruct (Dict.lookup "id" d) as [i|]; [|reflexivity].
  cbn [bind Ok]. destruct (py_int i) as [|zi]; [reflexivity|].
  destruct (Dict.lookup "latitude" d) as [la|]; [|reflexivity].
  cbn [bind Ok]. destruct (py_float la) as [|fla]; [reflexivity|].
  destruct (Dict.lookup "longitude" d) as [lo|]; [|reflexivity].
  cbn [bind Ok]. destruct (py_float lo) as [|flo]; [reflexivity|].
  destruct (Dict.lookup "title" (Dict.set "title" t d));
    destruct (Dict.lookup "title" d); cbn; now repeat split.
Qed.

Lemma all_in_set_title (d : Dict.t) (t : pyval) :
  all_in required_keys (PDict (Dict.set "title" t d))
  = all_in required_keys (PDict d).
Proof.
  rewrite !all_in_required_dict. unfold Dict.mem.
  cbn [forallb required_keys].
  now rewrite !lookup_set_other by discriminate.
Qed.

Lemma title_variant_outcome (v w : pyval) :
  title_variant v w ->
  all_in required_keys v = all_in required_keys w
  /\ same_outcome_but_title (make_point v) (make_point w).
Proof.
  intros [u | d t | d t].
  - split; [reflexivity|]. unfold same_outcome_but_title.
    destruct (make_point u); [reflexivity | apply same_but_title_refl].
  - split; [symmetry; apply all_in_set_title | apply make_point_set_title].
  - split; [apply all_in_set_title|].
    pose proof (make_point_set_title d t) as H.
    unfold same_outcome_but_title in *.
    destruct (make_point (PDict d)), (make_point (PDict (Dict.set "title" t d)));
      try contradiction; [now symmetry | now apply same_but_title_sym].
Qed.

(** The loop on two lists of title variants, from collections that
    agree up to titles, ends the same way on collections that agree up
    to titles. *)
Lemma parse_loop_variants (l1 l2 : list pyval) :
  Forall2 title_variant l1 l2 ->
  forall s1 s2 : YandexMapGenerator,
    Forall2 same_but_title (_points s1) (_points s2) ->
    fst (parse_loop l1 s1) = fst (parse_loop l2 s2)
    /\ Forall2 same_but_title (_points (snd (parse_loop l1 s1)))
                              (_points (snd (parse_loop l2 s2))).
Proof.
  induction 1 as [|v w l1 l2 Hvw _ IH]; intros s1 s2 Hs.
  - now split.
  - destruct (title_variant_outcome v w Hvw) as [Hall Hmk].
    cbn [parse_loop]. rewrite Hall.
    destruct (all_in required_keys w) as [e|[|]]; try now split.
    unfold same_outcome_but_title in Hmk.
    destruct (make_point v) as [e|p], (make_point w) as [e'|q];
      try contradiction.
    + subst e'. now split.
    + apply IH. rewrite !points_set_points.
      apply Forall2_app; [exact Hs | now constructor].
Qed.

Lemma generate_map_url_variants (s1 s2 : YandexMapGenerator) :
  _zoom s1 = _zoom s2 -> _lang s1 = _lang s2 ->
  Forall2 same_but_title (_points s1) (_points s2) ->
  generate_map_url s1 = generate_map_url s2.
Proof.
  destruct s1 as [z1 l1 ps], s2 as [z2 l2 qs]. cbn [_zoom _lang _points].
  intros -> -> H. destruct H as [|p q ps qs Hpq Hrest]; [reflexivity|].
  rewrite !generate_map_url_cons.
  destruct (same_but_title_token p q Hpq) as [Htok Hcen].
  cbn [map]. rewrite Htok, Hcen.
  now rewrite (same_but_title_tokens ps qs Hrest).
Qed.

(** X8. From the input to the URL, the title plays no part: two
    lists whose elements differ at most in the presence or the value of
    their title load with the same outcome, and the URLs generated
    after the two loads are the same. *)
Theorem title_plays_no_part :
  forall (data data' : list pyval) (self : YandexMapGenerator),
    Forall2 title_variant data data' ->
    fst (_parse_points (PList data) self)
    = fst (_parse_points (PList data') self)
    /\ generate_map_url (snd (_parse_points (PList data) self))
       = generate_map_url (snd (_parse_points (PList data') self)).
Proof.
  intros data data' self H. unfold _parse_points.
  destruct (parse_loop_variants data data' H
              (set_points self []) (set_points self []))
    as [Hfst Hpts]; [constructor|].
  split; [exact Hfst|].
  destruct (parse_loop_settings data (set_points self [])) as [Hz Hl].
  destruct (parse_loop_settings data' (set_points self [])) as [Hz' Hl'].
  apply generate_map_url_variants; [congruence | congruence | exact Hpts].
Qed.

(** ** The characters of a marker token *)

Section TokenCharacters.
Import Text.

Lemma chars_append (a b : string) :
  chars (a ++ b) = chars a ++ chars b.
Proof.
  unfold chars. induction a as [|c a IH]; [reflexivity|].
  cbn [append list_ascii_of_string app]. now rewrite IH.
Qed.

Lemma chars_text (l : list ascii) : chars (text l) = l.
Proof. apply list_ascii_of_string_of_list_ascii. Qed.

Lemma digit_numeric (c : ascii) : is_digit c = true -> numeric_char c = true.
Proof. unfold numeric_char. now intros ->. Qed.

Lemma uint_digits (d : Decimal.uint) :
  Forall (fun c => numeric_char c = true)
         (chars (NilEmpty.string_of_uint d)).
Proof.
  induction d; cbn [NilEmpty.string_of_uint chars list_ascii_of_string];
    constructor; solve [reflexivity | assumption].
Qed.

Lemma str_of_int_numeric (z : Z) :
  Forall (fun c => numeric_char c = true) (chars (str_of_int z)).
Proof.
  unfold str_of_int, NilZero.string_of_int, NilZero.string_of_uint.
  destruct (Z.to_int z) as [d|d].
  - destruct d; try apply uint_digits. repeat constructor.
  - change (chars (String "-" ?s)) with ("-"%char :: chars s).
    constructor; [reflexivity|].
    destruct d; try apply uint_digits. repeat constructor.
Qed.

Lemma strip_trailing_zeros_rev_numeric (P : ascii -> Prop) (r : list ascii) :
  Forall P r -> Forall P (Float.strip_trailing_zeros_rev r).
Proof.
  induction 1 as [|c r Hc Hr IH]; cbn [Float.strip_trailing_zeros_rev].
  - constructor.
  - destruct (Ascii.eqb c "0"); [exact IH | now constructor].
Qed.

Lemma repeat_char_numeric (n : nat) :
  Forall (fun c => numeric_char c = true) (repeat_char "0" n).
Proof. induction n; cbn [repeat_char]; now constructor. Qed.

Lemma Forall_firstn_skipn {A} (P : A -> Prop) (n : nat) (l : list A) :
  Forall P l -> Forall P (firstn n l) /\ Forall P (skipn n l).
Proof.
  intros H. rewrite <- (firstn_skipn n l) in H. now apply Forall_app in H.
Qed.

Lemma exponent_text_numeric (x : Z) :
  Forall (fun c => numeric_char c = true) (Float.exponent_text x).
Proof.
  unfold Float.exponent_text.
  repeat (apply Forall_app; split).
  - repeat constructor.
  - destruct (x <? 0); repeat constructor.
  - destruct (Z.abs x <? 10); repeat constructor.
  - apply str_of_int_numeric.
Qed.

Lemma layout_numeric (ds : list ascii) (decpt : Z) :
  Forall (fun c => numeric_char c = true) ds ->
  Forall (fun c => numeric_char c = true) (Float.layout ds decpt).
Proof.
  intros H. unfold Float.layout.
  destruct ((decpt <=? -4) || (16 <? decpt)).
  - destruct ds as [|d [|d' rest]].
    + constructor.
    + inversion H; subst. constructor; [assumption|].
      apply exponent_text_numeric.
    + inversion H as [|? ? Hd Hrest]; subst. constructor; [assumption|].
      cbn [chars list_ascii_of_string app]. constructor; [reflexivity|].
      apply (proj2 (Forall_app _ (d' :: rest) _)).
      split; [exact Hrest | apply exponent_text_numeric].
  - destruct (decpt <=? 0).
    + cbn [chars list_ascii_of_string app].
      do 2 (constructor; [reflexivity|]).
      apply Forall_app. split; [apply repeat_char_numeric | exact H].
    + destruct (Z.of_nat (List.length ds) <=? decpt).
      * repeat (apply Forall_app; split); try assumption.
        -- apply repeat_char_numeric.
        -- repeat constructor.
      * destruct (Forall_firstn_skipn _ (Z.to_nat decpt) ds H) as [H1 H2].
        repeat (apply Forall_app; split); try assumption.
        repeat constructor.
Qed.

Lemma shortest_digits_numeric (m : positive) (e : Z) :
  Forall (fun c => numeric_char c = true) (fst (Float.shortest_digits m e)).
Proof.
  unfold Float.shortest_digits.
  destruct (Float.shortest _ _ _ _ _ _ _) as [c s]. cbn [fst].
  unfold Float.strip_trailing_zeros.
  apply Forall_rev, strip_trailing_zeros_rev_numeric, Forall_rev.
  apply str_of_int_numeric.
Qed.

(** [repr] of a float is made of digits, signs, a point, an exponent
    mark and the letters of [inf] and [nan]. *)
Lemma repr_numeric (x : Float.pyfloat) :
  Forall (fun c => numeric_char c = true) (chars (Float.repr x)).
Proof.
  destruct x as [|[|]|[|]|neg m e]; try (repeat constructor).
  unfold Float.repr.
  pose proof (shortest_digits_numeric m e) as H.
  destruct (Float.shortest_digits m e) as [ds decpt]. cbn [fst] in H.
  rewrite chars_append, chars_text.
  apply Forall_app. split.
  - destruct neg; repeat constructor.
  - now apply layout_numeric.
Qed.


Lemma split_on_free (sep : ascii) (t : list ascii) :
  Forall (fun c => Ascii.eqb c sep = false) t -> split_on sep t = [t].
Proof.
  induction 1 as [|c t Hc _ IH]; [reflexivity|].
  cbn [split_on]. now rewrite Hc, IH.
Qed.

Lemma split_on_app (sep : ascii) (t rest : list ascii) :
  Forall (fun c => Ascii.eqb c sep = false) t ->
  split_on sep (t ++ sep :: rest) = t :: split_on sep rest.
Proof.
  induction 1 as [|c t Hc _ IH]; cbn [app split_on].
  - now rewrite Ascii.eqb_refl.
  - now rewrite Hc, IH.
Qed.

Lemma chars_concat_cons (sep s s' : string) (l : list string) :
  chars (String.concat sep (s :: s' :: l))
  = chars s ++ chars sep ++ chars (String.concat sep (s' :: l)).
Proof. cbn [String.concat]. now rewrite !chars_append. Qed.

(** Joining texts that do not hold the separator and splitting the
    result gives the texts back. *)
Lemma split_on_concat (sep : ascii) (tokens : list string) :
  tokens <> [] ->
  Forall (fun t => Forall (fun c => Ascii.eqb c sep = false) (chars t))
         tokens ->
  split_on sep (chars (String.concat (String sep "") tokens))
  = map chars tokens.
Proof.
  intros Hne H. induction H as [|t tokens Ht Hrest IH]; [now elim Hne|].
  destruct tokens as [|t' tokens].
  - cbn [String.concat map]. now apply split_on_free.
  - rewrite chars_concat_cons. cbn [chars list_ascii_of_string app map].
    rewrite (split_on_app sep _ _ Ht). f_equal.
    apply IH. discriminate.
Qed.

Lemma numeric_not_separator (c : ascii) :
  numeric_char c = true ->
  Ascii.eqb c "~" = false /\ Ascii.eqb c "," = false.
Proof.
  intros H. split.
  - destruct (Ascii.eqb_spec c "~"); [subst; discriminate | reflexivity].
  - destruct (Ascii.eqb_spec c ","); [subst; discriminate | reflexivity].
Qed.

Lemma numeric_free (sep : ascii) (l : list ascii) :
  sep = "~"%char \/ sep = ","%char ->
  Forall (fun c => numeric_char c = true) l ->
  Forall (fun c => Ascii.eqb c sep = false) l.
Proof.
  intros Hsep H. eapply Forall_impl; [|exact H].
  intros c Hc. destruct (numeric_not_separator c Hc) as [H1 H2].
  now destruct Hsep; subst.
Qed.

Lemma label_free (sep : ascii) (z : Z) :
  sep = "~"%char \/ sep = ","%char ->
  Forall (fun c => Ascii.eqb c sep = false)
         (chars ("pmwtm" ++ str_of_int z)).
Proof.
  intros Hsep. rewrite chars_append. apply Forall_app. split.
  - destruct Hsep; subst; repeat constructor.
  - apply numeric_free; [exact Hsep | apply str_of_int_numeric].
Qed.

Lemma marker_token_chars (p : Point) :
  chars (marker_token p)
  = chars (Float.repr (longitude p)) ++ ","%char
    :: chars (Float.repr (latitude p)) ++ ","%char
    :: chars ("pmwtm" ++ str_of_int (id p)).
Proof.
  unfold marker_token. now rewrite !chars_append.
Qed.

Lemma marker_token_no_tilde (p : Point) :
  Forall (fun c => Ascii.eqb c "~" = false) (chars (marker_token p)).
Proof.
  rewrite marker_token_chars.
  apply Forall_app. split; [apply numeric_free; [now left | apply repr_numeric]|].
  constructor; [reflexivity|].
  apply Forall_app. split; [apply numeric_free; [now left | apply repr_numeric]|].
  constructor; [reflexivity|].
  apply label_free. now left.
Qed.

Lemma marker_token_fields (p : Point) :
  split_on "," (chars (marker_token p))
  = [ chars (Float.repr (longitude p));
      chars (Float.repr (latitude p));
      chars ("pmwtm" ++ str_of_int (id p)) ].
Proof.
  rewrite marker_token_chars.
  rewrite split_on_app
    by (apply numeric_free; [now right | apply repr_numeric]).
  rewrite split_on_app
    by (apply numeric_free; [now right | apply repr_numeric]).
  rewrite split_on_free by (apply label_free; now right).
  reflexivity.
Qed.

End TokenCharacters.

(** X9. The [pt] parameter can be taken apart again: split at [~] it
    gives the token of each point of the collection, one per point and
    in order, and each token split at the commas gives its longitude,
    its latitude and the label [pmwtm<id>].  No number or label holds a
    [~] or a comma. *)
Theorem pt_splits_into_tokens :
  forall (self : YandexMapGenerator) (p0 : Point) (pt : string),
    _points self <> [] ->
    In ("pt", pt) (map_params self p0) ->
    split_on "~" (Text.chars pt)
    = map (fun p => Text.chars (marker_token p)) (_points self)
    /\ Forall (fun p =>
                 split_on "," (Text.chars (marker_token p))
                 = [ Text.chars (Float.repr (longitude p));
                     Text.chars (Float.repr (latitude p));
                     Text.chars ("pmwtm" ++ Text.str_of_int (id p)) ])
              (_points self).
Proof.
  intros self p0 pt Hne Hin.
  assert (Hpt : pt = String.concat "~" (map marker_token (_points self))).
  { unfold map_params in Hin. cbn [In] in Hin.
    destruct Hin as [H|[H|[H|[H|[]]]]]; inversion H. reflexivity. }
  subst pt. split.
  - rewrite (split_on_concat "~").
    + now rewrite map_map.
    + destruct (_points self); [now elim Hne | discriminate].
    + apply Forall_map, Forall_forall. intros p _.
      apply marker_token_no_tilde.
  - apply Forall_forall. intros p _. apply marker_token_fields.
Qed.

(** ** The characters of the URL *)

Section QueryCharacters.
Import Text.

Lemma safe_query (c : ascii) : Url.always_safe c = true -> query_char c = true.
Proof. unfold query_char. now intros ->. Qed.

Lemma quote_byte_query (c : ascii) :
  Forall (fun x => query_char x = true) (Url.quote_byte c).
Proof.
  destruct c as [[] [] [] [] [] [] [] []]; repeat constructor.
Qed.

Lemma quote_plus_query (s : string) :
  Forall (fun x => query_char x = true) (chars (Url.quote_plus s)).
Proof.
  unfold Url.quote_plus. rewrite chars_text.
  apply Forall_flat_map, Forall_forall. intros c _. apply quote_byte_query.
Qed.

Lemma concat_query (P : ascii -> Prop) (sep : string) (l : list string) :
  Forall P (chars sep) ->
  Forall (fun s => Forall P (chars s)) l ->
  Forall P (chars (String.concat sep l)).
Proof.
  intros Hsep H. induction H as [|s l Hs Hl IH]; [constructor|].
  destruct l as [|s' l]; [exact Hs|].
  rewrite chars_concat_cons.
  repeat (apply Forall_app; split); assumption.
Qed.

Lemma urlencode_query (params : list (string * string)) :
  Forall (fun x => query_char x = true) (chars (Url.urlencode params)).
Proof.
  unfold Url.urlencode. apply concat_query; [repeat constructor|].
  apply Forall_map, Forall_forall. intros [k v] _. cbn [fst snd].
  rewrite !chars_append.
  repeat (apply Forall_app; split); try apply quote_plus_query.
  repeat constructor.
Qed.

End QueryCharacters.

(** X10. Every URL [generate_map_url] returns is the base address, a
    question mark and a query made of unreserved characters, [%], [+],
    [&] and [=] only, whatever the language tag and the numbers are: no
    space, comma, quote or byte outside ASCII reaches the URL
    unescaped. *)
Theorem url_is_percent_encoded :
  forall (self : YandexMapGenerator) (url : string),
    generate_map_url self = Ok url ->
    exists query : string,
      url = (base_url ++ "?" ++ query)%string
      /\ forallb query_char (Text.chars query) = true.
Proof.
  intros self url. unfold generate_map_url.
  destruct (_points self) as [|p0 rest]; [discriminate|].
  unfold Ok. intros H. injection H as <-.
  exists (Url.urlencode (map_params self p0)). split; [reflexivity|].
  apply forallb_forall. apply Forall_forall. apply urlencode_query.
Qed.

(** ** The whole run *)

Lemma loaded_is_well_formed (v : pyval) (p : Point) :
  loaded_from v p -> well_formed v = true.
Proof.
  unfold loaded_from, make_point, py_getitem, well_formed.
  destruct v as [| | | | |l|d]; try discriminate.
  destruct (Dict.lookup "id" d) as [i|]; try discriminate.
  cbn [bind Ok]. destruct (py_int i); try discriminate.
  destruct (Dict.lookup "latitude" d) as [la|]; try discriminate.
  cbn [bind Ok]. destruct (py_float la); try discriminate.
  destruct (Dict.lookup "longitude" d) as [lo|]; try discriminate.
  cbn [bind Ok]. destruct (py_float lo); try discriminate.
  reflexivity.
Qed.

Lemma all_loaded_well_formed (data : list pyval) (pts : list Point) :
  Forall2 loaded_from data pts ->
  Forall (fun v => well_formed v = true) data.
Proof.
  induction 1 as [|v p data pts Hvp _ IH]; constructor;
    [exact (loaded_is_well_formed v p Hvp) | exact IH].
Qed.

Lemma loaded_from_functional (data : list pyval) (pts pts' : list Point) :
  Forall2 loaded_from data pts -> Forall2 loaded_from data pts' -> pts = pts'.
Proof.
  intros H. revert pts'. induction H as [|v p data pts Hvp _ IH];
    intros pts' H'; inversion H' as [|? q ? qs Hvq Hrest]; subst;
    [reflexivity|].
  unfold loaded_from in Hvp, Hvq. rewrite Hvp in Hvq.
  injection Hvq as <-. now rewrite (IH qs Hrest).
Qed.

Lemma main_from_source (fs : filesystem) (stdin_text : string)
      (args : arguments) (input : string) :
  source args stdin_text = Some input ->
  main fs stdin_text args
  = match load_points fs input (__init__ default_zoom default_lang) with
    | (inl e, _) => Raise e
    | (inr _, g) => display_map g
    end.
Proof.
  unfold source, main. destruct (stdin args).
  - now intros [= ->].
  - intros ->. reflexivity.
Qed.

(** X11. Once [parse_args] has returned its namespace (line 90), the
    rest of [main] opens a URL exactly when the text the namespace
    designates, or the contents of the file that text names, is a JSON
    array of at least one well-formed point object; the URL is then the
    one of the points of these objects, in order, with zoom 5 and
    language ru_RU.  Command lines that [parse_args] itself rejects
    give no namespace and are not covered. *)
Theorem main_opens_url_iff :
  forall (fs : filesystem) (stdin_text : string) (args : arguments)
         (input contents url : string),
    source args stdin_text = Some input ->
    resolves fs input contents ->
    (main fs stdin_text args = Ok url
     <-> exists (data : list pyval) (pts : list Point) (p0 : Point),
           Json.loads contents = Ok (PList data)
           /\ Forall2 loaded_from data pts
           /\ hd_error pts = Some p0
           /\ url = (base_url ++ "?"
                     ++ Url.urlencode
                          (map_params
                             (mkGenerator default_zoom default_lang pts) p0))%string).
Proof.
  intros fs stdin_text args input contents url Hsrc Hres.
  rewrite (main_from_source fs stdin_text args input Hsrc).
  rewrite (load_points_resolves fs input contents _ Hres).
  unfold load_text. split.
  - destruct (Json.loads contents) as [e|d]; [discriminate|].
    destruct (_parse_points d (__init__ default_zoom default_lang))
      as [[e|[]] g] eqn:Hrun; [discriminate|].
    destruct d as [| | | | |data|]; try discriminate Hrun.
    pose proof (parse_loop_ok_well_formed data _ _ Hrun) as Hwf.
    destruct (parse_points_well_formed data
                (__init__ default_zoom default_lang) Hwf)
      as (pts & Hpts & Hrun').
    rewrite Hrun' in Hrun. injection Hrun as <-.
    unfold display_map, generate_map_url.
    cbn [_points set_points].
    destruct pts as [|p0 rest]; [discriminate|].
    unfold Ok. intros [= <-].
    exists data, (p0 :: rest), p0. repeat split. exact Hpts.
  - intros (data & pts & p0 & Hjson & Hpts & Hhd & ->).
    rewrite Hjson. cbv beta iota delta [Ok].
    destruct (parse_points_well_formed data
                (__init__ default_zoom default_lang)
                (all_loaded_well_formed data pts Hpts))
      as (pts' & Hpts' & Hrun).
    rewrite Hrun, (loaded_from_functional data pts' pts Hpts' Hpts).
    destruct pts as [|p rest]; [discriminate|].
    injection Hhd as <-. reflexivity.
Qed.

Lemma parse_points_error (data : pyval) (self self' : YandexMapGenerator)
      (e : exc) :
  _parse_points data self = (Raise e, self') ->
  e = ValueError NotAList \/ e = ValueError MissingKeys
  \/ is_coercion_error e = true.
Proof.
  intros H. destruct data as [| | | | |l|d];
    try (unfold _parse_points, Raise in H; inversion H; now left).
  right. exact (parse_loop_error l _ _ e H).
Qed.

(** X12. Once [parse_args] has returned its namespace (line 90), on
    a file system whose files can be read, the rest of [main] ends with
    the usage error of [parser.error] (line 99) exactly when the
    namespace has [stdin] false and [json_input] missing or empty; no
    later step ends the run that way.  Command lines that [parse_args]
    itself rejects give no namespace and are not covered. *)
Theorem usage_error_iff :
  forall (fs : filesystem) (stdin_text : string) (args : arguments),
    readable fs ->
    (main fs stdin_text args = Raise SystemExit
     <-> source args stdin_text = None).
Proof.
  intros fs stdin_text args Hfs. split.
  - destruct (source args stdin_text) as [input|] eqn:Hsrc; [|reflexivity].
    rewrite (main_from_source fs stdin_text args input Hsrc).
    unfold load_points.
    assert (Hdata : forall e,
               match fs input with
               | Some file => contents <- file ;; Json.loads contents
               | None => Json.loads input
               end = Raise e -> e = JSONDecodeError).
    { intros e. destruct (fs input) as [[e'|c]|] eqn:Hf.
      - now elim (Hfs input e').
      - cbn [bind]. apply loads_error.
      - apply loads_error. }
    destruct (match fs input with
              | Some file => contents <- file ;; Json.loads contents
              | None => Json.loads input
              end) as [e|d].
    + intros H. unfold Raise in H. injection H as ->.
      now specialize (Hdata SystemExit eq_refl).
    + destruct (_parse_points d (__init__ default_zoom default_lang))
        as [[e|u] g] eqn:Hrun.
      * intros H. unfold Raise in H. injection H as ->.
        destruct (parse_points_error d _ _ _ Hrun) as [H|[H|H]];
          discriminate H.
      * unfold display_map, generate_map_url.
        destruct (_points g); discriminate.
  - unfold source, main. destruct (stdin args); [discriminate|].
    now intros ->.
Qed.

(** X19. [_parse_points] succeeds on a list exactly when every
    element is a well-formed point object, and the collection is then
    the points of the elements, one per element and in order, whatever
    it held before. *)
Theorem load_succeeds_iff :
  forall (data : list pyval) (self self' : YandexMapGenerator),
    _parse_points (PList data) self = (Ok tt, self')
    <-> exists pts : list Point,
          Forall2 loaded_from data pts /\ self' = set_points self pts.
Proof.
  intros data self self'. split.
  - intros H.
    pose proof (parse_loop_ok_well_formed data _ _ H) as Hwf.
    destruct (parse_points_well_formed data self Hwf) as (pts & Hpts & Hrun).
    exists pts. split; [exact Hpts|]. congruence.
  - intros (pts & Hpts & ->).
    destruct (parse_points_well_formed data self
                (all_loaded_well_formed data pts Hpts))
      as (pts' & Hpts' & Hrun).
    now rewrite Hrun, (loaded_from_functional data pts' pts Hpts' Hpts).
Qed.

(** ** The log *)

(** Leaving the records out of the logged methods gives the methods
    themselves. *)
Lemma logged_parse_points_plain (data : pyval) (self : YandexMapGenerator) :
  fst (Logged._parse_points data self) = _parse_points data self.
Proof.
  unfold Logged._parse_points.
  now destruct (_parse_points data self) as [[e|[]] g].
Qed.

Lemma logged_load_points_plain (fs : filesystem) (input : string)
      (self : YandexMapGenerator) :
  fst (Logged.load_points fs input self) = load_points fs input self.
Proof.
  unfold Logged.load_points, load_points.
  destruct (match fs input with
            | Some file => contents <- file ;; Json.loads contents
            | None => Json.loads input
            end) as [e|d]; [reflexivity|].
  rewrite <- (logged_parse_points_plain d self).
  now destruct (Logged._parse_points d self) as [[[e|[]] g] l].
Qed.

Lemma logged_display_map_plain (self : YandexMapGenerator) :
  fst (Logged.display_map self) = display_map self.
Proof.
  unfold Logged.display_map, Logged.generate_map_url, display_map.
  now destruct (generate_map_url self).
Qed.

Lemma logged_main_plain (fs : filesystem) (stdin_text : string)
      (args : arguments) :
  fst (Logged.main fs stdin_text args) = main fs stdin_text args.
Proof.
  unfold Logged.main, main. cbv zeta.
  assert (H : forall input g,
             fst (match Logged.load_points fs input g with
                  | ((inl e, _), l) => (Raise e, l)
                  | ((inr _, g'), l) =>
                      let '(r, l') := Logged.display_map g' in (r, l ++ l')
                  end)
             = match load_points fs input g with
               | (inl e, _) => Raise e
               | (inr _, g') => display_map g'
               end).
  { intros input g. rewrite <- (logged_load_points_plain fs input g).
    destruct (Logged.load_points fs input g) as [[[e|u] g'] l];
      [reflexivity|].
    cbn [fst]. rewrite <- (logged_display_map_plain g').
    now destruct (Logged.display_map g'). }
  destruct (stdin args); [apply H|].
  destruct (truthy (json_input args)); [apply H | reflexivity].
Qed.

Lemma logged_load_points_resolves (fs : filesystem) (input contents : string)
      (self : YandexMapGenerator) :
  resolves fs input contents ->
  Logged.load_points fs input self
  = let detected :=
      [(INFO, match fs input with
              | Some _ => InputIsFile input
              | None => InputIsText
              end)] in
    match Json.loads contents with
    | inl e => ((Raise e, self), detected ++ Logged.handler e)
    | inr d =>
        match Logged._parse_points d self with
        | ((inl e, self'), l) =>
            ((Raise e, self'), detected ++ l ++ Logged.handler e)
        | ((inr tt, self'), l) => ((Ok tt, self'), detected ++ l)
        end
    end.
Proof.
  intros [c H | H]; unfold Logged.load_points; rewrite H; reflexivity.
Qed.

(** X13. A load that succeeds emits two records and no more: which
    kind of input was detected, then the number of points loaded, which
    is the number of elements of the JSON array. *)
Theorem successful_load_log :
  forall (fs : filesystem) (input contents : string) (data : list pyval)
         (self : YandexMapGenerator),
    resolves fs input contents ->
    Json.loads contents = Ok (PList data) ->
    Forall (fun v => well_formed v = true) data ->
    exists self' : YandexMapGenerator,
      Logged.load_points fs input self
      = ((Ok tt, self'),
         [ (INFO, match fs input with
                  | Some _ => InputIsFile input
                  | None => InputIsText
                  end);
           (INFO, LoadedPoints (List.length data)) ]).
Proof.
  intros fs input contents data self Hres Hjson Hwf.
  rewrite (logged_load_points_resolves fs input contents self Hres).
  rewrite Hjson. cbv beta iota zeta delta [Ok].
  destruct (parse_points_well_formed data self Hwf) as (pts & Hpts & Hrun).
  unfold Logged._parse_points. rewrite Hrun. cbv beta iota delta [Ok].
  exists (set_points self pts).
  now rewrite points_set_points, (Forall2_length Hpts).
Qed.

(** X14. A load that fails emits the detection record and then an
    error record exactly when the exception is a [ValueError] or a JSON
    error, the two classes the handler names.  A failure with
    [TypeError] or [OverflowError] (a null id, an element that is no
    mapping, an infinite id) or with [OSError] leaves no error record.
    The number of points is never logged by a failed load. *)
Theorem failed_load_log :
  forall (fs : filesystem) (input : string) (self self' : YandexMapGenerator)
         (e : exc) (l : list record),
    Logged.load_points fs input self = ((Raise e, self'), l) ->
    l = (INFO, match fs input with
               | Some _ => InputIsFile input
               | None => InputIsText
               end)
        :: (if caught e then [(ERROR, ParseFailed e)] else []).
Proof.
  intros fs input self self' e l. unfold Logged.load_points.
  destruct (match fs input with
            | Some file => contents <- file ;; Json.loads contents
            | None => Json.loads input
            end) as [e'|d].
  - unfold Raise. intros [= <- <- <-]. now destruct (fs input).
  - unfold Logged._parse_points.
    destruct (_parse_points d self) as [[e'|[]] g]; [|discriminate].
    unfold Raise. intros [= <- <- <-]. now destruct (fs input).
Qed.

(** X15. A run that opens a map emits four records, in this order:
    the kind of input, the number of points, the URL, and the notice
    that the map is opened; the URL logged is the URL opened. *)
Theorem successful_run_log :
  forall (fs : filesystem) (stdin_text : string) (args : arguments)
         (input contents : string) (data : list pyval),
    source args stdin_text = Some input ->
    resolves fs input contents ->
    Json.loads contents = Ok (PList data) ->
    Forall (fun v => well_formed v = true) data ->
    data <> [] ->
    exists url : string,
      Logged.main fs stdin_text args
      = (Ok url,
         [ (INFO, match fs input with
                  | Some _ => InputIsFile input
                  | None => InputIsText
                  end);
           (INFO, LoadedPoints (List.length data));
           (INFO, UrlIs url);
           (INFO, MapOpened) ]).
Proof.
  intros fs stdin_text args input contents data Hsrc Hres Hjson Hwf Hne.
  assert (Hmain : Logged.main fs stdin_text args
                  = match Logged.load_points fs input
                            (__init__ default_zoom default_lang) with
                    | ((inl e, _), l) => (Raise e, l)
                    | ((inr _, g'), l) =>
                        let '(r, l') := Logged.display_map g' in (r, l ++ l')
                    end).
  { unfold source in Hsrc. unfold Logged.main. cbv zeta.
    destruct (stdin args); [now injection Hsrc as -> | now rewrite Hsrc]. }
  rewrite Hmain, (logged_load_points_resolves fs input contents _ Hres).
  rewrite Hjson. cbv beta iota zeta delta [Ok].
  destruct (parse_points_well_formed data
              (__init__ default_zoom default_lang) Hwf)
    as (pts & Hpts & Hrun).
  unfold Logged._parse_points. rewrite Hrun. cbv beta iota delta [Ok].
  rewrite points_set_points, (Forall2_length Hpts).
  destruct pts as [|p0 rest].
  { inversion Hpts; subst. now elim Hne. }
  eexists. unfold Logged.display_map, Logged.generate_map_url.
  unfold set_points, __init__. cbn [_zoom _lang].
  rewrite generate_map_url_cons. cbv beta iota delta [Ok].
  reflexivity.
Qed.

(** X16. On the empty JSON array the load succeeds and logs zero
    points; URL generation then raises the "no points" error, outside
    the handler of [load_points]: the run ends with that [ValueError]
    and no error record is emitted for it. *)
Theorem empty_array_run_log :
  forall (fs : filesystem) (stdin_text : string) (args : arguments)
         (input contents : string),
    source args stdin_text = Some input ->
    resolves fs input contents ->
    Json.loads contents = Ok (PList []) ->
    Logged.main fs stdin_text args
    = (Raise (ValueError NoPoints),
       [ (INFO, match fs input with
                | Some _ => InputIsFile input
                | None => InputIsText
                end);
         (INFO, LoadedPoints 0) ]).
Proof.
  intros fs stdin_text args input contents Hsrc Hres Hjson.
  assert (Hmain : Logged.main fs stdin_text args
                  = match Logged.load_points fs input
                            (__init__ default_zoom default_lang) with
                    | ((inl e, _), l) => (Raise e, l)
                    | ((inr _, g'), l) =>
                        let '(r, l') := Logged.display_map g' in (r, l ++ l')
                    end).
  { unfold source in Hsrc. unfold Logged.main. cbv zeta.
    destruct (stdin args); [now injection Hsrc as -> | now rewrite Hsrc]. }
  rewrite Hmain, (logged_load_points_resolves fs input contents _ Hres).
  rewrite Hjson. reflexivity.
Qed.

(** ** Ids given as text *)

Section DecimalText.
Import Text.

Lemma uint_all_digits (d : Decimal.uint) :
  forallb is_digit (chars (NilEmpty.string_of_uint d)) = true.
Proof.
  induction d; cbn [NilEmpty.string_of_uint chars list_ascii_of_string forallb];
    [reflexivity | exact IHd ..].
Qed.

Lemma digits_val_acc (d : Decimal.uint) :
  forall acc : positive,
    fold_left (fun a c => 10 * a + digit_val c)
              (chars (NilEmpty.string_of_uint d)) (Zpos acc)
    = Zpos (Pos.of_uint_acc d acc).
Proof.
  induction d; intros acc;
    cbn [NilEmpty.string_of_uint chars list_ascii_of_string fold_left
         Pos.of_uint_acc];
    [reflexivity | ..];
    match goal with
    | |- fold_left _ _ (10 * ?a + digit_val ?c) = Zpos (Pos.of_uint_acc _ ?p) =>
        let v := eval vm_compute in (digit_val c) in
        change (digit_val c) with v;
        replace (10 * a + v) with (Zpos p) by lia
    end; apply IHd.
Qed.

Lemma digits_val_uint (d : Decimal.uint) :
  digits_val (chars (NilEmpty.string_of_uint d)) = Z.of_N (Pos.of_uint d).
Proof.
  unfold digits_val.
  induction d;
    cbn [NilEmpty.string_of_uint chars list_ascii_of_string fold_left
         Pos.of_uint];
    [reflexivity | exact IHd | ..];
    match goal with
    | |- fold_left _ _ (10 * 0 + digit_val ?c) = Z.of_N (Npos (Pos.of_uint_acc _ ?p)) =>
        change (10 * 0 + digit_val c) with (Zpos p)
    end; apply digits_val_acc.
Qed.

(** [int(str(n)) == n]. *)
Lemma int_of_str_of_int (n : Z) :
  Numeral.int_of_str (str_of_int n) = Ok n.
Proof.
  assert (Hpos : forall p neg,
             Numeral.int_of_str
               (int_numeral neg (chars (NilEmpty.string_of_uint (Pos.to_uint p))))
             = Ok (if neg then Zneg p else Zpos p)).
  { intros p neg. rewrite int_of_str_numeral.
    - rewrite digits_val_uint, Unsigned.of_to. now destruct neg.
    - pose proof (Unsigned.to_uint_nonnil p) as Hn.
      destruct (Pos.to_uint p); [now elim Hn | discriminate ..].
    - apply uint_all_digits. }
  assert (Htext : forall p,
             NilZero.string_of_uint (Pos.to_uint p)
             = NilEmpty.string_of_uint (Pos.to_uint p)).
  { intros p. pose proof (Unsigned.to_uint_nonnil p) as Hn.
    now destruct (Pos.to_uint p). }
  unfold str_of_int. destruct n as [|p|p]; cbn [Z.to_int NilZero.string_of_int].
  - reflexivity.
  - rewrite Htext. specialize (Hpos p false).
    unfold int_numeral, text in Hpos. cbn [app] in Hpos.
    unfold chars in Hpos at 1.
    now rewrite string_of_list_ascii_of_string in Hpos.
  - rewrite Htext. specialize (Hpos p true).
    unfold int_numeral, text in Hpos.
    cbn [app string_of_list_ascii] in Hpos. unfold chars in Hpos at 1.
    now rewrite string_of_list_ascii_of_string in Hpos.
Qed.

End DecimalText.

Lemma lookup_set_same (k : string) (v : pyval) (d : Dict.t) :
  Dict.lookup k (Dict.set k v d) = Some v.
Proof.
  induction d as [|[k0 v0] d IH]; cbn [Dict.set Dict.lookup].
  - now rewrite String.eqb_refl.
  - destruct (String.eqb k k0) eqn:E; cbn [Dict.lookup]; rewrite E.
    + reflexivity.
    + exact IH.
Qed.

(** X17. An id given as the decimal text of an integer loads exactly
    as that integer: replacing the int id of an element by its [str]
    changes neither the outcome of the load nor the object it
    leaves. *)
Theorem text_id_loads_as_int :
  forall (pre post : list pyval) (d : Dict.t) (n : Z)
         (self : YandexMapGenerator),
    _parse_points
      (PList (pre ++ PDict (Dict.set "id" (PStr (Text.str_of_int n)) d) :: post))
      self
    = _parse_points
        (PList (pre ++ PDict (Dict.set "id" (PInt n) d) :: post)) self.
Proof.
  intros pre post d n self. unfold _parse_points.
  apply parse_loop_congruence.
  - rewrite !all_in_required_dict. unfold Dict.mem.
    cbn [forallb required_keys].
    now rewrite !lookup_set_same, !lookup_set_other by discriminate.
  - unfold make_point, py_getitem, py_get.
    rewrite !lookup_set_same, !lookup_set_other by discriminate.
    cbn [bind Ok py_int]. now rewrite int_of_str_of_int.
Qed.

Section QueryRoundTrip.
Import Text.

Lemma quote_byte_no_delimiter (c : ascii) :
  Forall (fun x => Ascii.eqb x "&" = false /\ Ascii.eqb x "=" = false)
         (Url.quote_byte c).
Proof.
  destruct c as [[] [] [] [] [] [] [] []]; repeat constructor.
Qed.

Lemma quote_plus_no_delimiter (s : string) :
  Forall (fun x => Ascii.eqb x "&" = false /\ Ascii.eqb x "=" = false)
         (chars (Url.quote_plus s)).
Proof.
  unfold Url.quote_plus. rewrite chars_text.
  apply Forall_flat_map, Forall_forall. intros c _.
  apply quote_byte_no_delimiter.
Qed.

Lemma unquote_quote_byte (c : ascii) (r : list ascii) :
  unquote_plus (Url.quote_byte c ++ r) = c :: unquote_plus r.
Proof.
  destruct c as [[] [] [] [] [] [] [] []]; reflexivity.
Qed.

Lemma unquote_quote_plus (s : string) :
  unquote_plus (chars (Url.quote_plus s)) = chars s.
Proof.
  unfold Url.quote_plus. rewrite chars_text. unfold chars.
  induction (list_ascii_of_string s) as [|c l IH]; [reflexivity|].
  cbn [flat_map]. now rewrite unquote_quote_byte, IH.
Qed.

Lemma cut_app (sep : ascii) (a b : list ascii) :
  Forall (fun c => Ascii.eqb c sep = false) a ->
  cut sep (a ++ sep :: b) = Some (a, b).
Proof.
  induction 1 as [|c a Hc _ IH]; cbn [app cut].
  - now rewrite Ascii.eqb_refl.
  - now rewrite Hc, IH.
Qed.

Lemma text_chars (s : string) : text (chars s) = s.
Proof. apply string_of_list_ascii_of_string. Qed.

(** What [urlencode] writes, [query_pairs] reads back. *)
Lemma query_pairs_urlencode (params : list (string * string)) :
  params <> [] ->
  query_pairs (chars (Url.urlencode params)) = params.
Proof.
  intros Hne. unfold query_pairs, Url.urlencode.
  rewrite (split_on_concat "&").
  - rewrite !map_map. rewrite <- (map_id params) at 2.
    apply map_ext. intros [k v]. cbn [fst snd].
    rewrite !chars_append. cbn [chars list_ascii_of_string app].
    rewrite cut_app.
    + fold (chars (Url.quote_plus k)). fold (chars (Url.quote_plus v)).
      now rewrite !unquote_quote_plus, !text_chars.
    + eapply Forall_impl; [|apply quote_plus_no_delimiter].
      now intros c [_ H].
  - destruct params; [now elim Hne | discriminate].
  - apply Forall_map, Forall_forall. intros [k v] _. cbn [fst snd].
    rewrite !chars_append.
    repeat (apply Forall_app; split).
    + eapply Forall_impl; [|apply quote_plus_no_delimiter]. now intros c [H _].
    + repeat constructor.
    + eapply Forall_impl; [|apply quote_plus_no_delimiter]. now intros c [H _].
Qed.

End QueryRoundTrip.

(** X18. Nothing is lost in the encoding: the query of the URL, split
    at [&] and [=] and unquoted, gives back the four parameters [ll],
    [z], [lang] and [pt] with their exact values, whatever characters
    the language tag holds. *)
Theorem url_parameters_read_back :
  forall (self : YandexMapGenerator) (url : string),
    generate_map_url self = Ok url ->
    exists (query : string) (p0 : Point),
      url = (base_url ++ "?" ++ query)%string
      /\ hd_error (_points self) = Some p0
      /\ query_pairs (Text.chars query)
         = [ ("ll", center_of p0);
             ("z", Text.str_of_int (_zoom self));
             ("lang", _lang self);
             ("pt", String.concat "~" (map marker_token (_points self))) ].
Proof.
  intros self url. unfold generate_map_url.
  destruct (_points self) as [|p0 rest] eqn:Hpts; [discriminate|].
  unfold Ok. intros [= <-].
  exists (Url.urlencode (map_params self p0)), p0.
  repeat split.
  rewrite query_pairs_urlencode by discriminate.
  unfold map_params. now rewrite Hpts.
Qed.

(** * The parameters read back from the URL *)

Lemma loaded_token (v : pyval) (p : Point) :
  loaded_from v p -> marker_token p = object_token v.
Proof.
  unfold loaded_from, make_point, py_getitem, py_get, object_token,
    marker_token.
  destruct v as [| | | | |l|d]; try discriminate.
  destruct (Dict.lookup "id" d) as [i|]; [|discriminate].
  cbn [bind Ok]. destruct (py_int i) as [|zi]; [discriminate|].
  destruct (Dict.lookup "latitude" d) as [la|]; [|discriminate].
  cbn [bind Ok]. destruct (py_float la) as [|fla]; [discriminate|].
  destruct (Dict.lookup "longitude" d) as [lo|]; [|discriminate].
  cbn [bind Ok]. destruct (py_float lo) as [|flo]; [discriminate|].
  destruct (Dict.lookup "title" d); cbn [bind Ok]; unfold Ok;
    intros [= <-]; reflexivity.
Qed.

Lemma loaded_tokens (data : list pyval) (pts : list Point) :
  Forall2 loaded_from data pts ->
  map marker_token pts = map object_token data.
Proof.
  induction 1 as [|v p data pts Hvp _ IH]; [reflexivity|].
  cbn [map]. now rewrite (loaded_token v p Hvp), IH.
Qed.

(** C1. Loading a non-empty list of well-formed point objects with
    [_parse_points] succeeds and keeps one point per object.  The URL
    generated from the collection has a [pt] parameter, read back from
    the text of the URL, that is the tokens of the objects joined with
    [~], in the order of the list; the token of an object is
    [<longitude>,<latitude>,pmwtm<id>] with the values of that object.
    Split at [~], the parameter gives these tokens back: exactly one
    per object. *)
Theorem pt_one_token_per_point :
  forall (data : list pyval) (self : YandexMapGenerator),
    data <> [] ->
    Forall (fun v => well_formed v = true) data ->
    exists (pts : list Point) (query pt : string),
      _parse_points (PList data) self = (Ok tt, set_points self pts)
      /\ List.length pts = List.length data
      /\ generate_map_url (set_points self pts)
         = Ok (base_url ++ "?" ++ query)%string
      /\ param "pt" (query_pairs (Text.chars query)) = Some pt
      /\ pt = String.concat "~" (map object_token data)
      /\ split_on "~" (Text.chars pt)
         = map (fun v => Text.chars (object_token v)) data.
Proof.
  intros data self Hne Hwf.
  destruct (parse_points_well_formed data self Hwf) as [pts [Hload Hrun]].
  pose proof (loaded_tokens data pts Hload) as Htok.
  destruct pts as [|p0 rest].
  { inversion Hload; subst. now elim Hne. }
  exists (p0 :: rest),
         (Url.urlencode (map_params (set_points self (p0 :: rest)) p0)),
         (String.concat "~" (map object_token data)).
  split; [exact Hrun|].
  split; [symmetry; exact (Forall2_length Hload)|].
  split; [reflexivity|].
  split.
  - rewrite query_pairs_urlencode by discriminate.
    unfold map_params. rewrite points_set_points, Htok. reflexivity.
  - split; [reflexivity|].
    rewrite (split_on_concat "~").
    + now rewrite map_map.
    + destruct data; [now elim Hne | discriminate].
    + rewrite <- Htok. apply Forall_map, Forall_forall. intros p _.
      apply marker_token_no_tilde.
Qed.

(** C4. With a non-empty collection, the [ll] parameter of the
    generated URL, read back from the text of the URL, is the first
    point's longitude, a comma, and its latitude; split at the comma it
    gives the longitude first and the latitude second. *)
Theorem ll_is_first_point :
  forall (zoom : Z) (lang : string) (p0 : Point) (rest : list Point),
    exists (query ll : string),
      generate_map_url (mkGenerator zoom lang (p0 :: rest))
      = Ok (base_url ++ "?" ++ query)%string
      /\ param "ll" (query_pairs (Text.chars query)) = Some ll
      /\ ll = (Float.repr (longitude p0) ++ ","
               ++ Float.repr (latitude p0))%string
      /\ split_on "," (Text.chars ll)
         = [ Text.chars (Float.repr (longitude p0));
             Text.chars (Float.repr (latitude p0)) ].
Proof.
  intros zoom lang p0 rest.
  exists (Url.urlencode (map_params (mkGenerator zoom lang (p0 :: rest)) p0)),
         (center_of p0).
  split; [reflexivity|].
  split; [now rewrite query_pairs_urlencode by discriminate|].
  split; [reflexivity|].
  unfold center_of. rewrite !chars_append.
  cbn [Text.chars list_ascii_of_string app].
  rewrite split_on_app
    by (apply numeric_free; [now right | apply repr_numeric]).
  rewrite split_on_free
    by (apply numeric_free; [now right | apply repr_numeric]).
  reflexivity.
Qed.

(** The ids [+7], [ 1_0 ] and twelve in Arabic-Indic digits are read
    by [int()]: the points load with the ids 7, 10 and 12. *)
Example text_ids_loaded :
  exists p q r : Point,
    _parse_points
      (PList [ point_object (PStr "+7") (PInt 10) (PInt 20);
               point_object (PStr " 1_0 ") (PInt 10) (PInt 20);
               point_object (PStr arabic_twelve) (PInt 10) (PInt 20) ])
      (__init__ default_zoom default_lang)
    = (Ok tt, mkGenerator default_zoom default_lang [p; q; r])
    /\ id p = 7 /\ id q = 10 /\ id r = 12.
Proof.
  do 3 eexists. split; [vm_compute; reflexivity | repeat split].
Qed.

(** A NaN id fails the load with the [ValueError] of [int()]. *)
Example nan_id_rejected :
  Json.loads (json_text "[{'id':NaN,'latitude':10.0,'longitude':20.0}]")
  = Ok (PList [point_object (PFloat Float.Nan)
                 (PFloat (Float.Finite false 5629499534213120 (-49)))
                 (PFloat (Float.Finite false 5629499534213120 (-48)))])
  /\ load_points no_files
       (json_text "[{'id':NaN,'latitude':10.0,'longitude':20.0}]")
       (__init__ default_zoom default_lang)
     = (Raise (ValueError NanToInteger), __init__ default_zoom default_lang).
Proof. split; vm_compute; reflexivity. Qed.

(** * Instances of the further properties *)

(** X3 at a well-formed object followed by [None]. *)
Lemma load_stops_at_first_bad_element_witness :
  Forall (fun u => well_formed u = true)
         [point_object (PInt 1) (PInt 10) (PInt 20)]
  /\ well_formed PNone = false
  /\ exists (e : exc) (pts : list Point),
       Forall2 loaded_from [point_object (PInt 1) (PInt 10) (PInt 20)] pts
       /\ forall rest : list pyval,
            _parse_points
              (PList ([point_object (PInt 1) (PInt 10) (PInt 20)]
                      ++ PNone :: rest))
              (__init__ default_zoom default_lang)
            = (Raise e, set_points (__init__ default_zoom default_lang) pts).
Proof.
  split; [repeat constructor|].
  split; [reflexivity|].
  apply load_stops_at_first_bad_element.
  - repeat constructor.
  - reflexivity.
Defined.

(** X4 at a value that is not a list. *)
Lemma parse_points_exceptions_witness :
  _parse_points PNone (__init__ default_zoom default_lang)
  = (Raise (ValueError NotAList), __init__ default_zoom default_lang)
  /\ In (ValueError NotAList)
        [ValueError NotAList; ValueError MissingKeys; TypeError;
         OverflowError; ValueError InvalidLiteral; ValueError NanToInteger].
Proof.
  split; [reflexivity|].
  apply (parse_points_exceptions PNone
           (__init__ default_zoom default_lang)
           (__init__ default_zoom default_lang)).
  reflexivity.
Defined.

(** X5 at the text of an empty JSON object, after an earlier load. *)
Lemma load_rejects_non_array_witness :
  resolves no_files "{}" "{}"
  /\ (forall l, Json.loads "{}" <> Ok (PList l))
  /\ exists e : exc,
       load_points no_files "{}" origin_generator = (Raise e, origin_generator)
       /\ (e = JSONDecodeError \/ e = ValueError NotAList).
Proof.
  assert (H : resolves no_files "{}" "{}") by (apply from_text; reflexivity).
  assert (Hnot : forall l, Json.loads "{}" <> Ok (PList l)).
  { intros l E. vm_compute in E. discriminate E. }
  split; [exact H|]. split; [exact Hnot|].
  exact (load_rejects_non_array no_files "{}" "{}" origin_generator H Hnot).
Defined.

(** X6 at a string that holds the three key names. *)
Lemma non_mapping_element_fails_witness :
  Forall (fun u => well_formed u = true) []
  /\ (forall d, PStr "id latitude longitude" <> PDict d)
  /\ exists pts : list Point,
       Forall2 loaded_from [] pts
       /\ _parse_points (PList ([] ++ PStr "id latitude longitude" :: []))
                        (__init__ default_zoom default_lang)
          = (Raise TypeError, set_points (__init__ default_zoom default_lang) pts).
Proof.
  assert (Hv : forall d, PStr "id latitude longitude" <> PDict d)
    by (intros d E; discriminate E).
  split; [constructor|]. split; [exact Hv|].
  exact (non_mapping_element_fails [] (PStr "id latitude longitude") []
           (__init__ default_zoom default_lang) (Forall_nil _) Hv).
Defined.

(** X7 at a well-formed object and the key [name]: the point loads,
    the same with and without the key. *)
Lemma other_keys_ignored_witness :
  read_key "name" = false
  /\ _parse_points
       (PList ([] ++ PDict (Dict.set "name" (PStr "A")
                              [("id", PInt 1); ("latitude", PInt 10);
                               ("longitude", PInt 20)]) :: []))
       (__init__ default_zoom default_lang)
     = _parse_points
         (PList ([] ++ PDict [("id", PInt 1); ("latitude", PInt 10);
                              ("longitude", PInt 20)] :: []))
         (__init__ default_zoom default_lang)
  /\ exists p : Point,
       _parse_points
         (PList ([] ++ PDict [("id", PInt 1); ("latitude", PInt 10);
                              ("longitude", PInt 20)] :: []))
         (__init__ default_zoom default_lang)
       = (Ok tt, mkGenerator default_zoom default_lang [p])
       /\ id p = 1.
Proof.
  split; [reflexivity|]. split.
  - apply other_keys_ignored. reflexivity.
  - eexists. split; [vm_compute; reflexivity | reflexivity].
Defined.

(** X8 at one object with and without a title. *)
Lemma title_plays_no_part_witness :
  Forall2 title_variant
    [PDict [("id", PInt 1); ("latitude", PInt 10); ("longitude", PInt 20)]]
    [PDict (Dict.set "title" (PStr "A")
              [("id", PInt 1); ("latitude", PInt 10); ("longitude", PInt 20)])]
  /\ generate_map_url
       (snd (_parse_points
               (PList [PDict [("id", PInt 1); ("latitude", PInt 10);
                              ("longitude", PInt 20)]])
               (__init__ default_zoom default_lang)))
     = generate_map_url
         (snd (_parse_points
                 (PList [PDict (Dict.set "title" (PStr "A")
                                  [("id", PInt 1); ("latitude", PInt 10);
                                   ("longitude", PInt 20)])])
                 (__init__ default_zoom default_lang))).
Proof.
  assert (H : Forall2 title_variant
                [PDict [("id", PInt 1); ("latitude", PInt 10);
                        ("longitude", PInt 20)]]
                [PDict (Dict.set "title" (PStr "A")
                          [("id", PInt 1); ("latitude", PInt 10);
                           ("longitude", PInt 20)])]).
  { constructor; [apply variant_set | constructor]. }
  split; [exact H|].
  exact (proj2 (title_plays_no_part _ _ (__init__ default_zoom default_lang) H)).
Defined.

(** X9 at a collection of two points: the parameter splits at its
    one [~] into the two tokens, and a token at its two commas into
    longitude, latitude and label. *)
Lemma pt_splits_into_tokens_witness :
  _points two_point_generator <> []
  /\ In ("pt", "0.0,0.0,pmwtm1~1.0,0.0,pmwtm2")
        (map_params two_point_generator origin_point)
  /\ split_on "~" (Text.chars "0.0,0.0,pmwtm1~1.0,0.0,pmwtm2")
     = [ Text.chars "0.0,0.0,pmwtm1"; Text.chars "1.0,0.0,pmwtm2" ]
  /\ split_on "," (Text.chars "1.0,0.0,pmwtm2")
     = [ Text.chars "1.0"; Text.chars "0.0"; Text.chars "pmwtm2" ].
Proof.
  assert (Hne : _points two_point_generator <> []) by discriminate.
  assert (Hin : In ("pt", "0.0,0.0,pmwtm1~1.0,0.0,pmwtm2")
                   (map_params two_point_generator origin_point)).
  { right. right. right. left. reflexivity. }
  split; [exact Hne|]. split; [exact Hin|].
  destruct (pt_splits_into_tokens two_point_generator origin_point
              "0.0,0.0,pmwtm1~1.0,0.0,pmwtm2" Hne Hin) as [Hsplit Hfields].
  split; [exact Hsplit|].
  exact (Forall_inv (Forall_inv_tail Hfields)).
Defined.

(** X10 at the collection of one point at the origin. *)
Lemma url_is_percent_encoded_witness :
  generate_map_url origin_generator
  = Ok "https://maps.yandex.ru/?ll=0.0%2C0.0&z=5&lang=ru_RU&pt=0.0%2C0.0%2Cpmwtm1"
  /\ exists query : string,
       "https://maps.yandex.ru/?ll=0.0%2C0.0&z=5&lang=ru_RU&pt=0.0%2C0.0%2Cpmwtm1"
       = (base_url ++ "?" ++ query)%string
       /\ forallb query_char (Text.chars query) = true.
Proof.
  split; [reflexivity|].
  apply (url_is_percent_encoded origin_generator). reflexivity.
Defined.

(** X11 at the one-point text given as the positional argument, with
    no file of that name. *)
Lemma main_opens_url_iff_witness :
  source (positional one_point_text) "" = Some one_point_text
  /\ resolves no_files one_point_text one_point_text
  /\ exists (data : list pyval) (pts : list Point) (p0 : Point),
       Json.loads one_point_text = Ok (PList data)
       /\ Forall2 loaded_from data pts
       /\ hd_error pts = Some p0
       /\ "https://maps.yandex.ru/?ll=20.0%2C10.0&z=5&lang=ru_RU&pt=20.0%2C10.0%2Cpmwtm1"
          = (base_url ++ "?"
             ++ Url.urlencode
                  (map_params (mkGenerator default_zoom default_lang pts) p0))%string.
Proof.
  assert (Hsrc : source (positional one_point_text) "" = Some one_point_text)
    by reflexivity.
  assert (Hres : resolves no_files one_point_text one_point_text)
    by (apply from_text; reflexivity).
  split; [exact Hsrc|]. split; [exact Hres|].
  apply (proj1 (main_opens_url_iff no_files "" (positional one_point_text)
                  one_point_text one_point_text _ Hsrc Hres)).
  vm_compute. reflexivity.
Defined.

(** X12 on the file system with no file, with no argument at all. *)
Lemma usage_error_iff_witness :
  readable no_files
  /\ main no_files "[]" {| json_input := None; stdin := false |}
     = Raise SystemExit.
Proof.
  assert (H : readable no_files) by (intros path e E; discriminate E).
  split; [exact H|].
  apply (proj2 (usage_error_iff no_files "[]"
                  {| json_input := None; stdin := false |} H)).
  reflexivity.
Defined.

(** X13 at the one-point text, with no file of that name. *)
Lemma successful_load_log_witness :
  resolves no_files one_point_text one_point_text
  /\ Json.loads one_point_text = Ok (PList one_point_data)
  /\ Forall (fun v => well_formed v = true) one_point_data
  /\ exists self' : YandexMapGenerator,
       Logged.load_points no_files one_point_text
                          (__init__ default_zoom default_lang)
       = ((Ok tt, self'), [(INFO, InputIsText); (INFO, LoadedPoints 1)]).
Proof.
  assert (Hres : resolves no_files one_point_text one_point_text)
    by (apply from_text; reflexivity).
  assert (Hjson : Json.loads one_point_text = Ok (PList one_point_data))
    by (vm_compute; reflexivity).
  assert (Hwf : Forall (fun v => well_formed v = true) one_point_data)
    by (repeat constructor).
  split; [exact Hres|]. split; [exact Hjson|]. split; [exact Hwf|].
  exact (successful_load_log no_files one_point_text one_point_text
           one_point_data (__init__ default_zoom default_lang)
           Hres Hjson Hwf).
Defined.

(** X14 at the JSON array that holds [null]: a [TypeError], with no
    error record. *)
Lemma failed_load_log_witness :
  Logged.load_points no_files "[null]" (__init__ default_zoom default_lang)
  = ((Raise TypeError, __init__ default_zoom default_lang),
     [(INFO, InputIsText)])
  /\ [(INFO, InputIsText)]
     = (INFO, InputIsText)
       :: (if caught TypeError then [(ERROR, ParseFailed TypeError)] else []).
Proof.
  assert (H : Logged.load_points no_files "[null]"
                (__init__ default_zoom default_lang)
              = ((Raise TypeError, __init__ default_zoom default_lang),
                 [(INFO, InputIsText)]))
    by (vm_compute; reflexivity).
  split; [exact H|].
  exact (failed_load_log no_files "[null]" _ _ _ _ H).
Defined.

(** X15 at the one-point text given as the positional argument. *)
Lemma successful_run_log_witness :
  source (positional one_point_text) "" = Some one_point_text
  /\ resolves no_files one_point_text one_point_text
  /\ Json.loads one_point_text = Ok (PList one_point_data)
  /\ Forall (fun v => well_formed v = true) one_point_data
  /\ one_point_data <> []
  /\ exists url : string,
       Logged.main no_files "" (positional one_point_text)
       = (Ok url,
          [ (INFO, InputIsText); (INFO, LoadedPoints 1);
            (INFO, UrlIs url); (INFO, MapOpened) ]).
Proof.
  assert (Hsrc : source (positional one_point_text) "" = Some one_point_text)
    by reflexivity.
  assert (Hres : resolves no_files one_point_text one_point_text)
    by (apply from_text; reflexivity).
  assert (Hjson : Json.loads one_point_text = Ok (PList one_point_data))
    by (vm_compute; reflexivity).
  assert (Hwf : Forall (fun v => well_formed v = true) one_point_data)
    by (repeat constructor).
  assert (Hne : one_point_data <> []) by discriminate.
  repeat (split; [assumption|]).
  exact (successful_run_log no_files "" (positional one_point_text)
           one_point_text one_point_text one_point_data
           Hsrc Hres Hjson Hwf Hne).
Defined.

(** X16 at the text of the empty array read from standard input. *)
Lemma empty_array_run_log_witness :
  source stdin_only "[]" = Some "[]"
  /\ resolves no_files "[]" "[]"
  /\ Json.loads "[]" = Ok (PList [])
  /\ Logged.main no_files "[]" stdin_only
     = (Raise (ValueError NoPoints),
        [(INFO, InputIsText); (INFO, LoadedPoints 0)]).
Proof.
  assert (Hsrc : source stdin_only "[]" = Some "[]") by reflexivity.
  assert (Hres : resolves no_files "[]" "[]")
    by (apply from_text; reflexivity).
  assert (Hjson : Json.loads "[]" = Ok (PList []))
    by (vm_compute; reflexivity).
  repeat (split; [assumption|]).
  exact (empty_array_run_log no_files "[]" stdin_only "[]" "[]"
           Hsrc Hres Hjson).
Defined.

(** X18 at the collection of one point at the origin. *)
Lemma url_parameters_read_back_witness :
  generate_map_url origin_generator
  = Ok "https://maps.yandex.ru/?ll=0.0%2C0.0&z=5&lang=ru_RU&pt=0.0%2C0.0%2Cpmwtm1"
  /\ exists (query : string) (p0 : Point),
       "https://maps.yandex.ru/?ll=0.0%2C0.0&z=5&lang=ru_RU&pt=0.0%2C0.0%2Cpmwtm1"
       = (base_url ++ "?" ++ query)%string
       /\ hd_error (_points origin_generator) = Some p0
       /\ query_pairs (Text.chars query)
          = [ ("ll", center_of p0);
              ("z", Text.str_of_int (_zoom origin_generator));
              ("lang", _lang origin_generator);
              ("pt", String.concat "~"
                       (map marker_token (_points origin_generator))) ].
Proof.
  split; [reflexivity|].
  apply (url_parameters_read_back origin_generator). reflexivity.
Defined.

(** C1 at a list of two objects: the parameter holds the two tokens in
    the order of the list, with a [~] between them. *)
Lemma pt_one_token_per_point_witness :
  two_objects <> []
  /\ Forall (fun v => well_formed v = true) two_objects
  /\ exists (pts : list Point) (query : string),
       _parse_points (PList two_objects) (__init__ default_zoom default_lang)
       = (Ok tt, set_points (__init__ default_zoom default_lang) pts)
       /\ List.length pts = 2%nat
       /\ generate_map_url (set_points (__init__ default_zoom default_lang) pts)
          = Ok (base_url ++ "?" ++ query)%string
       /\ param "pt" (query_pairs (Text.chars query))
          = Some "20.0,10.0,pmwtm1~40.0,30.0,pmwtm2"
       /\ split_on "~" (Text.chars "20.0,10.0,pmwtm1~40.0,30.0,pmwtm2")
          = [ Text.chars "20.0,10.0,pmwtm1"; Text.chars "40.0,30.0,pmwtm2" ].
Proof.
  assert (Hne : two_objects <> []) by discriminate.
  assert (Hwf : Forall (fun v => well_formed v = true) two_objects)
    by (repeat constructor).
  split; [exact Hne|]. split; [exact Hwf|].
  destruct (pt_one_token_per_point two_objects
              (__init__ default_zoom default_lang) Hne Hwf)
    as (pts & query & pt & Hrun & Hlen & Hurl & Hpt & Heq & Hsplit).
  assert (Hval : pt = "20.0,10.0,pmwtm1~40.0,30.0,pmwtm2").
  { rewrite Heq. vm_compute. reflexivity. }
  subst pt. exists pts, query.
  split; [exact Hrun|]. split; [exact Hlen|]. split; [exact Hurl|].
  split; [rewrite <- Hval; exact Hpt|].
  rewrite <- Hval at 1. exact Hsplit.
Defined.
